(** * dev-diagnostics.js: the in-browser connection diagnostics

    A shallow embedding of the diagnostics script of the gameflix-app
    frontend (the orchestrator [runAllChecks], its four checks and the panel
    they render to), together with the properties its specification states.

    The script is asynchronous browser code.  It is embedded as a program
    over the effects it performs (console output, panel updates, reads of
    [location.protocol] and [navigator.onLine], [Date.now()], and the two
    awaited network operations [fetchWithTimeout] and [res.json()]).  A
    [World] fixes what the browser and the network answer; time is logical,
    counted in milliseconds.  Two interpreters run a program: [exec] runs
    one call to completion, [simulate] is the event loop, where several runs
    and the user's clicks interleave at the await points. *)

From Stdlib Require Import String List NArith ZArith Bool Lia DecimalString.
From ExtLib Require Import Structures.Monad.
Import ListNotations.
Import MonadNotation.

Local Open Scope string_scope.
Local Open Scope N_scope.
Local Open Scope monad_scope.

Set Implicit Arguments.
Set Warnings "-register-all".

(* ================================================================== *)
(** * JavaScript values *)

(** An exception value: every error the script meets is an [Error] object
    (fetch rejects with a [TypeError] or a [DOMException], [res.json()] with
    a [SyntaxError], the timer with [new Error('timeout')]). *)
Record JsError : Type := mkError { name : string; message : string }.

(** The outcome of an expression inside [try]: a value, or a thrown error.
    [await p] inside [try] gives [Returned v] when [p] fulfils with [v] and
    [Thrown e] when it rejects with [e]. *)
Inductive Try (A : Type) : Type :=
| Returned (a : A)
| Thrown (e : JsError).
Arguments Thrown {A} e.

(** What [JSON.parse] can produce. *)
Inductive Json : Type :=
| JNull
| JBool (b : bool)
| JNumber (z : Z)
| JString (s : string)
| JArray (items : list Json)
| JObject (fields : list (string * Json)).

(** [JSON.parse] keeps the last of several members with the same key. *)
Definition lookup_last (key : string) (fields : list (string * Json)) : option Json :=
  fold_left (fun acc kv => if String.eqb (fst kv) key then Some (snd kv) else acc)
            fields None.

(** The [TypeError] of a property read on [null]; the wording is V8's. *)
Definition null_read_error (key : string) : JsError :=
  {| name := "TypeError";
     message := "Cannot read properties of null (reading '" ++ key ++ "')" |}.

(** [v.key] for a parsed JSON value [v]: [None] is [undefined].  Only an
    object has own members named by the keys the script reads; booleans,
    numbers, strings and arrays give [undefined]; [null] throws. *)
Definition getProp (v : Json) (key : string) : Try (option Json) :=
  match v with
  | JNull => Thrown (null_read_error key)
  | JObject fields => Returned (lookup_last key fields)
  | _ => Returned None
  end.

(** Decimal rendering of a number in a template literal. *)
Definition show (n : N) : string := NilZero.string_of_uint (N.to_uint n).

(** The same for a JSON number (the digits JavaScript prints for an integer
    below 10^21 in magnitude). *)
Definition show_int (z : Z) : string := NilZero.string_of_int (Z.to_int z).

(** The [TypeError] of converting to a string an object that has neither a
    callable [toString] nor a callable [valueOf]; the wording is V8's. *)
Definition not_primitive_error : JsError :=
  {| name := "TypeError"; message := "Cannot convert object to primitive value" |}.

(** Whether a parsed object has an own member [key]. *)
Definition has_own (key : string) (fields : list (string * Json)) : bool :=
  existsb (fun kv => String.eqb (fst kv) key) fields.

(** [String(v)], the conversion a template literal applies to a parsed JSON
    value.  An array joins the conversions of its elements with commas,
    [null] elements giving the empty string.  An object gives
    ['[object Object]'] through [Object.prototype.toString], unless it has
    an own member [toString]: a parsed value is never callable, so the
    conversion then falls through [valueOf] and throws. *)
Fixpoint to_string (v : Json) : Try string :=
  match v with
  | JNull => Returned "null"
  | JBool b => Returned (if b then "true" else "false")
  | JNumber z => Returned (show_int z)
  | JString s => Returned s
  | JArray items =>
      (fix join_items (l : list Json) : Try string :=
         match l with
         | [] => Returned EmptyString
         | x :: rest =>
             match (match x with JNull => Returned EmptyString | _ => to_string x end) with
             | Thrown e => Thrown e
             | Returned s =>
                 match rest with
                 | [] => Returned s
                 | _ :: _ =>
                     match join_items rest with
                     | Thrown e => Thrown e
                     | Returned r => Returned (s ++ "," ++ r)
                     end
                 end
             end
         end) items
  | JObject fields =>
      if has_own "toString" fields then Thrown not_primitive_error
      else Returned "[object Object]"
  end.

(** [`${x}`] for [x] the result of a property read: [undefined] gives
    ['undefined']. *)
Definition interpolate (x : option Json) : Try string :=
  match x with
  | None => Returned "undefined"
  | Some v => to_string v
  end.

(** [Array.prototype.join]. *)
Definition join (sep : string) (l : list string) : string := String.concat sep l.

(* ================================================================== *)
(** * The network, as the page sees it *)

(** [res.json()]: the body arrives and parses after [after] ms, or the read
    rejects (a body that is not JSON, a connection lost half way), or the
    body never ends. *)
Inductive BodyRead : Type :=
| BodyJson (after : N) (v : Json)
| BodyRejects (after : N) (e : JsError)
| BodyStalls.

Record Response : Type := mkResponse { status : N; body : BodyRead }.

(** What a [fetch] promise does, [after] ms after the call. *)
Inductive NetOutcome : Type :=
| NetResolves (after : N) (res : Response)
| NetRejects (after : N) (e : JsError)
| NetPending.

(** An [AbortSignal] that aborts the request it is attached to. *)
Record AbortSignal : Type := mkSignal { aborts_after : N }.

(** The members of fetch's init dictionary that the repository sets. *)
Record FetchOptions : Type := mkOptions {
  method : option string;
  mode : option string;
  cache : option string;
  signal : option AbortSignal
}.

(** What the page has for copying (lines 98-105): [navigator.clipboard]
    with a [writeText] whose promise fulfils or rejects, or only
    [document.execCommand('copy')], which copies, returns [false] without
    copying, or throws. *)
Inductive ClipboardSupport : Type :=
| AsyncClipboard (granted : bool)
| ExecCommand (copies : bool)
| ExecCommandThrows.

(** Browser state the script reads but does not own. *)
Record World : Type := mkWorld {
  location_protocol : string;
  navigator_onLine : bool;
  (** [net url options t]: the fate of [fetch(url, options)] called at [t]. *)
  net : string -> FetchOptions -> N -> NetOutcome;
  (** What [copyToClipboard] finds. *)
  clipboard_api : ClipboardSupport
}.

(* ================================================================== *)
(** * Results of the checks *)

(** [{ port, ok: true }] or [{ port, ok: false, info: err.message }]. *)
Record LocalResult : Type := mkLocal {
  port : N;
  ok : bool;
  info : option string
}.

(** [{ ok: true, ip: json.ip }] or [{ ok: false, error: err.message }]. *)
Inductive ExternalResult : Type :=
| ExternalOk (ip : option Json)
| ExternalFailed (error : string).

Definition ext_ok (r : ExternalResult) : bool :=
  match r with ExternalOk _ => true | ExternalFailed _ => false end.

(** [{ online: false }], [{ online: true, check: 'ok' }] or
    [{ online: true, check: 'failed' }]. *)
Record NetResult : Type := mkNet {
  online : bool;
  check : option string
}.

(* ================================================================== *)
(** * The page: panel, console, clipboard *)

(** The [level] argument of [addMessage]: 'info', 'warn' or 'error'. *)
Inductive Level : Type := lvl_info | lvl_warn | lvl_error.

(** A row of [#dev-diagnostics-messages].  [addMessage] also takes the
    markup shown under the heading; it is presentation only and is left out
    of the embedding. *)
Record Message : Type := mkMessage { level : Level; text : string }.

(** The [onClick] closures the script installs. *)
Inductive Handler : Type :=
| OpenWindow (url : string)
| CopyThenMessage (cmd : string) (lvl : Level) (heading : string)
| ShowMessage (lvl : Level) (heading : string)
| RunChecksAgain.

(** Children of [#dev-diagnostics-actions]. *)
Inductive ActionEl : Type :=
| Button (label : string) (onClick : Handler)
| HintEl (hint : string).

Record Panel : Type := mkPanel {
  messages : list Message;
  actions : list ActionEl;
  hidden : bool
}.

Inductive ConsoleMethod : Type := c_info | c_warn | c_error | c_log | c_group | c_groupEnd.

(** The value logged after the label. *)
Inductive Logged : Type :=
| LNone
| LText (s : string)
| LPorts (ports : list N)
| LLocal (results : list LocalResult)
| LExternal (r : ExternalResult)
| LNet (r : NetResult)
| LJson (v : Json).

Record ConsoleEntry : Type := mkEntry {
  via : ConsoleMethod;
  label : string;
  logged : Logged
}.

(** One call of [fetchWithTimeout], as an observer of the page would note
    it: what was asked, when, how long the caller waited for the promise to
    settle, and how it settled. *)
Record RequestRecord : Type := mkRequest {
  req_url : string;
  req_timeout : N;
  req_options : FetchOptions;
  issued_at : N;
  waited : N;
  settled : Try Response
}.

Record State : Type := mkState {
  clock : N;
  panel : option Panel;
  console : list ConsoleEntry;
  requests : list RequestRecord;
  clipboard : option string;
  opened : list string
}.

Definition initial_state (t : N) : State :=
  {| clock := t; panel := None; console := []; requests := [];
     clipboard := None; opened := [] |}.

Definition set_clock (t : N) (s : State) : State :=
  {| clock := t; panel := panel s; console := console s;
     requests := requests s; clipboard := clipboard s; opened := opened s |}.

Definition tick (d : N) (s : State) : State := set_clock (clock s + d) s.

Definition set_panel (p : Panel) (s : State) : State :=
  {| clock := clock s; panel := Some p; console := console s;
     requests := requests s; clipboard := clipboard s; opened := opened s |}.

Definition add_console (e : ConsoleEntry) (s : State) : State :=
  {| clock := clock s; panel := panel s; console := console s ++ [e];
     requests := requests s; clipboard := clipboard s; opened := opened s |}.

Definition add_request (r : RequestRecord) (s : State) : State :=
  {| clock := clock s; panel := panel s; console := console s;
     requests := requests s ++ [r]; clipboard := clipboard s; opened := opened s |}.

Definition set_clipboard (c : string) (s : State) : State :=
  {| clock := clock s; panel := panel s; console := console s;
     requests := requests s; clipboard := Some c; opened := opened s |}.

Definition add_opened (url : string) (s : State) : State :=
  {| clock := clock s; panel := panel s; console := console s;
     requests := requests s; clipboard := clipboard s; opened := opened s ++ [url] |}.

(** [ensurePanel()]: the element with id [dev-diagnostics-panel], created
    empty when the document has none. *)
Definition empty_panel : Panel := {| messages := []; actions := []; hidden := false |}.

Definition the_panel (s : State) : Panel :=
  match panel s with Some p => p | None => empty_panel end.

Definition ensure_panel (s : State) : State := set_panel (the_panel s) s.

(** The rows and the action elements on the page ([[]] before the panel
    exists). *)
Definition shown (s : State) : list Message := messages (the_panel s).
Definition buttons (s : State) : list ActionEl := actions (the_panel s).

Definition add_message (m : Message) (s : State) : State :=
  let p := the_panel s in
  set_panel {| messages := messages p ++ [m]; actions := actions p; hidden := hidden p |} s.

Definition add_actions (els : list ActionEl) (s : State) : State :=
  let p := the_panel s in
  set_panel {| messages := messages p; actions := actions p ++ els; hidden := hidden p |} s.

(** [panel.querySelector('#dev-diagnostics-messages').innerHTML = ''],
    after [ensurePanel()]. *)
Definition clear_messages (s : State) : State :=
  let p := the_panel s in
  set_panel {| messages := []; actions := actions p; hidden := hidden p |} s.

(** The close button: [panel.style.display = 'none']. *)
Definition hide_panel (s : State) : State :=
  let p := the_panel s in
  set_panel {| messages := messages p; actions := actions p; hidden := true |} s.

(* ================================================================== *)
(** * Programs over the script's effects *)

Inductive Eff : Type -> Type :=
| ConsoleE (e : ConsoleEntry) : Eff unit
| EnsurePanelE : Eff unit
| AddMessageE (lvl : Level) (heading : string) : Eff unit
| AddActionButtonE (lbl : string) (onClick : Handler) (hint : option string) : Eff unit
| LocationProtocolE : Eff string
| NavigatorOnLineE : Eff bool
| DateNowE : Eff N
| AwaitFetchWithTimeoutE (url : string) (timeoutMs : N) (options : FetchOptions)
    : Eff (Try Response)
| AwaitJsonE (res : Response) : Eff (Try Json).

Inductive Prog (A : Type) : Type :=
| Ret (a : A)
| Vis (X : Type) (e : Eff X) (k : X -> Prog A).
Arguments Ret {A} a.
Arguments Vis {A X} e k.

Fixpoint prog_bind {A B : Type} (m : Prog A) (f : A -> Prog B) : Prog B :=
  match m with
  | Ret a => f a
  | Vis e k => Vis e (fun x => prog_bind (k x) f)
  end.

#[export] Instance Monad_Prog : Monad Prog :=
  {| ret := @Ret; bind := @prog_bind |}.

Definition perform {X : Type} (e : Eff X) : Prog X := Vis e Ret.

(** What an effect does to the caller: it returns at once, it suspends the
    caller for [d] ms, or it suspends the caller for ever. *)
Inductive Reaction (X : Type) : Type :=
| Now (x : X) (s : State)
| Later (d : N) (x : X) (s : State)
| Never (s : State).
Arguments Never {X} s.

(** Lines 35-40, [fetchWithTimeout]: a timer rejects with
    [new Error('timeout')] after [timeoutMs]; the fetch settles the promise
    only if it comes first, and whichever comes second finds the promise
    settled and changes nothing.  The fetch itself is given the caller's
    [options] unchanged. *)
Definition timeout_error : JsError := {| name := "Error"; message := "timeout" |}.

Definition fetchWithTimeout_settles (o : NetOutcome) (timeoutMs : N) : N * Try Response :=
  match o with
  | NetResolves d res =>
      if d <? timeoutMs then (d, Returned res) else (timeoutMs, Thrown timeout_error)
  | NetRejects d err =>
      if d <? timeoutMs then (d, Thrown err) else (timeoutMs, Thrown timeout_error)
  | NetPending => (timeoutMs, Thrown timeout_error)
  end.

Definition handle (w : World) {X : Type} (e : Eff X) (s : State) : Reaction X :=
  match e in Eff X return Reaction X with
  | ConsoleE entry => Now tt (add_console entry s)
  | EnsurePanelE => Now tt (ensure_panel s)
  | AddMessageE lvl heading => Now tt (add_message {| level := lvl; text := heading |} s)
  | AddActionButtonE lbl onClick hint =>
      Now tt (add_actions (Button lbl onClick ::
                           match hint with Some h => [HintEl h] | None => [] end) s)
  | LocationProtocolE => Now (location_protocol w) s
  | NavigatorOnLineE => Now (navigator_onLine w) s
  | DateNowE => Now (clock s) s
  | AwaitFetchWithTimeoutE url timeoutMs options =>
      let '(d, r) := fetchWithTimeout_settles (net w url options (clock s)) timeoutMs in
      Later d r (add_request {| req_url := url; req_timeout := timeoutMs;
                                req_options := options; issued_at := clock s;
                                waited := d; settled := r |} s)
  | AwaitJsonE res =>
      match body res with
      | BodyJson d v => Later d (Returned v) s
      | BodyRejects d err => Later d (Thrown err) s
      | BodyStalls => Never s
      end
  end.

(** One call run on its own until it returns: [None] when it never does. *)
Fixpoint exec (w : World) {A : Type} (p : Prog A) (s : State) : option (A * State) :=
  match p with
  | Ret a => Some (a, s)
  | Vis e k =>
      match handle w e s with
      | Now x s' => exec w (k x) s'
      | Later d x s' => exec w (k x) (tick d s')
      | Never _ => None
      end
  end.

(* ================================================================== *)
(** * The script *)

(** ** Configuration (lines 23-27) *)

Definition LOCAL_PORTS : list N := [5500; 3000; 8080].
Definition LOCAL_PATH : string := "/".
Definition EXTERNAL_IP_URL : string := "https://api.ipify.org?format=json".
Definition EXTERNAL_TIMEOUT : N := 4000.
Definition LOCAL_TIMEOUT : N := 2000.

(** The timeout and the host written into [checkNetworkAdapter] (line 183). *)
Definition ADAPTER_PROBE_URL : string := "https://example.com/".
Definition ADAPTER_PROBE_TIMEOUT : N := 3000.

(** ** Logging helpers (lines 30-32) and the page's primitives *)

Definition logInfo (msg : string) (arg : Logged) : Prog unit :=
  perform (ConsoleE {| via := c_info; label := msg; logged := arg |}).
Definition logWarn (msg : string) (arg : Logged) : Prog unit :=
  perform (ConsoleE {| via := c_warn; label := msg; logged := arg |}).
Definition logError (msg : string) (arg : Logged) : Prog unit :=
  perform (ConsoleE {| via := c_error; label := msg; logged := arg |}).
Definition consoleLog (msg : string) (arg : Logged) : Prog unit :=
  perform (ConsoleE {| via := c_log; label := msg; logged := arg |}).
Definition consoleGroup (msg : string) : Prog unit :=
  perform (ConsoleE {| via := c_group; label := msg; logged := LNone |}).
Definition consoleGroupEnd : Prog unit :=
  perform (ConsoleE {| via := c_groupEnd; label := EmptyString; logged := LNone |}).

Definition ensurePanel : Prog unit := perform EnsurePanelE.
Definition addMessage (lvl : Level) (heading : string) : Prog unit :=
  perform (AddMessageE lvl heading).
Definition addActionButton (lbl : string) (onClick : Handler) (hint : option string)
  : Prog unit :=
  perform (AddActionButtonE lbl onClick hint).
Definition locationProtocol : Prog string := perform LocationProtocolE.
Definition navigatorOnLine : Prog bool := perform NavigatorOnLineE.
Definition dateNow : Prog N := perform DateNowE.

(** [await fetchWithTimeout(url, timeoutMs, options)] inside [try]. *)
Definition fetchWithTimeout (url : string) (timeoutMs : N) (options : FetchOptions)
  : Prog (Try Response) :=
  perform (AwaitFetchWithTimeoutE url timeoutMs options).

(** [await res.json()] inside [try]. *)
Definition awaitJson (res : Response) : Prog (Try Json) := perform (AwaitJsonE res).

(** ** The headings the panel can show *)

Definition STARTING : string := "Starting diagnostics".
Definition FILE_PAGE : string := "Page loaded via file:// (local file).".
Definition CHECKING_EXTERNAL : string := "Checking external connectivity...".
Definition LOCAL_DETECTED : string := "Local dev server detected".
Definition LOCAL_NOT_DETECTED : string := "No local dev server detected".
Definition EXTERNAL_OK : string := "External connectivity OK".
Definition EXTERNAL_UNABLE : string := "Unable to fetch external IP".
Definition ADAPTER_OFFLINE : string := "Network appears offline".
Definition ADAPTER_ONLINE : string := "Network adapter: online".
Definition ADAPTER_TEST_FAILED : string := "Connectivity test failed".

(** The three heuristic findings (lines 204, 207, 210). *)
Definition FINDING_FILE_ORIGIN : string := "Likely cause: file:// + no dev server".
Definition FINDING_EXTERNAL_BLOCKED : string :=
  "Pattern: local server OK but external fetch fails".
Definition FINDING_OFFLINE : string := "Network offline — reconnect required".

Definition RUN_AGAIN : string := "Run checks again".

(** The text of lines 222-226, joined with newlines. *)
Definition newline : string := String (Ascii.ascii_of_nat 10) EmptyString.
Definition CHECKLIST : string :=
  join newline
    ["Checklist to try:";
     "1. If you opened the HTML with file:// → start a simple server (e.g. python3 -m http.server 5500) and open http://localhost:5500";
     "2. Restart your dev server (Live Server / npm start)";
     "3. If external requests fail → temporarily disable VPN/proxy/firewall and retry";
     "4. If offline → reconnect your network adapter"].

(** ** Check 1: the page's protocol (lines 108-119) *)

Definition checkFileProtocol : Prog unit :=
  logInfo "Checking page protocol" LNone ;;
  protocol <- locationProtocol ;;
  if String.eqb protocol "file:" then
    logWarn "Page opened via file:// — this can cause request/CORS issues." LNone ;;
    addMessage lvl_warn FILE_PAGE ;;
    addActionButton "Open Live Server docs"
      (OpenWindow "https://marketplace.visualstudio.com/items?itemName=ritwickdey.LiveServer")
      (Some "VS Code Live Server extension (easy)") ;;
    addActionButton "Copy: start simple server (Python)"
      (CopyThenMessage "python3 -m http.server 5500" lvl_info
                       "Command copied: python3 -m http.server 5500")
      None
  else
    protocol' <- locationProtocol ;;
    logInfo "Page protocol OK:" (LText protocol') ;;
    protocol'' <- locationProtocol ;;
    addMessage lvl_info ("Page opened over " ++ protocol'').

(** ** Check 2: the localhost ports (lines 122-148) *)

Definition local_probe_options : FetchOptions :=
  {| method := Some "GET"; mode := Some "no-cors"; cache := None; signal := None |}.

Definition local_probe_url (p : N) (t : N) : string :=
  "http://localhost:" ++ show p ++ LOCAL_PATH ++ "?_dev_diag=" ++ show t.

(** The [for (const port of ...)] loop of lines 126-137, [results] being the
    array pushed to. *)
Fixpoint probePorts (ports : list N) (results : list LocalResult)
  : Prog (list LocalResult) :=
  match ports with
  | [] => ret results
  | p :: rest =>
      t <- dateNow ;;
      r <- fetchWithTimeout (local_probe_url p t) LOCAL_TIMEOUT local_probe_options ;;
      match r with
      | Returned _ =>
          logInfo ("localhost:" ++ show p ++ " appears to be responding.") LNone ;;
          probePorts rest (results ++ [{| port := p; ok := true; info := None |}])
      | Thrown err =>
          logWarn ("localhost:" ++ show p ++ " did not respond:") (LText (message err)) ;;
          probePorts rest
            (results ++ [{| port := p; ok := false; info := Some (message err) |}])
      end
  end.

Definition checkLocalServers : Prog (list LocalResult) :=
  logInfo "Probing localhost ports" (LPorts LOCAL_PORTS) ;;
  addMessage lvl_info
    ("Checking local dev servers (ports: " ++ join ", " (map show LOCAL_PORTS) ++ ")") ;;
  results <- probePorts LOCAL_PORTS [] ;;
  let up := filter ok results in
  (if (0 <? length up)%nat then
     addMessage lvl_info LOCAL_DETECTED
   else
     addMessage lvl_warn LOCAL_NOT_DETECTED ;;
     addActionButton "Copy: npm start"
       (CopyThenMessage "npm start" lvl_info "Copied: npm start") None) ;;
  consoleLog "[dev-diagnostics] Local server probe results:" (LLocal results) ;;
  ret results.

(** ** Check 3: external connectivity (lines 151-168) *)

Definition external_probe_options : FetchOptions :=
  {| method := None; mode := None; cache := Some "no-store"; signal := None |}.

(** The [catch] block, lines 160-167. *)
Definition externalCatch (err : JsError) : Prog ExternalResult :=
  logWarn "External fetch failed:" (LText (message err)) ;;
  addMessage lvl_warn EXTERNAL_UNABLE ;;
  addActionButton "Proxy/VPN help"
    (OpenWindow "https://www.howtogeek.com/192640/how-to-disable-your-vpn-or-turn-it-off-on-windows-and-mac/")
    None ;;
  addActionButton "macOS proxy check" (ShowMessage lvl_info "macOS proxy check") None ;;
  addActionButton "Windows proxy check" (ShowMessage lvl_info "Windows proxy check") None ;;
  ret (ExternalFailed (message err)).

(** The [try] block, lines 154-159: the awaited fetch, the awaited body,
    the read of [json.ip] in the template literal of line 158 and the
    conversion of its value to a string there can each throw, and each
    throw lands in the same [catch]. *)
Definition checkExternalConnectivity : Prog ExternalResult :=
  logInfo "Fetching external IP to check outbound connectivity" LNone ;;
  addMessage lvl_info CHECKING_EXTERNAL ;;
  r <- fetchWithTimeout EXTERNAL_IP_URL EXTERNAL_TIMEOUT external_probe_options ;;
  match r with
  | Thrown err => externalCatch err
  | Returned res =>
      j <- awaitJson res ;;
      match j with
      | Thrown err => externalCatch err
      | Returned json =>
          logInfo "External IP:" (LJson json) ;;
          match getProp json "ip" with
          | Thrown err => externalCatch err
          | Returned ip =>
              match interpolate ip with
              | Thrown err => externalCatch err
              | Returned _ =>
                  addMessage lvl_info EXTERNAL_OK ;;
                  ret (ExternalOk ip)
              end
          end
      end
  end.

(** ** Check 4: the network adapter (lines 171-191) *)

Definition adapter_probe_options : FetchOptions :=
  {| method := Some "HEAD"; mode := Some "no-cors"; cache := None; signal := None |}.

Definition checkNetworkAdapter : Prog NetResult :=
  logInfo "Checking navigator.onLine" LNone ;;
  isOnline <- navigatorOnLine ;;
  if negb isOnline then
    logWarn "Navigator reports offline" LNone ;;
    addMessage lvl_error ADAPTER_OFFLINE ;;
    addActionButton "Network troubleshooting"
      (OpenWindow "https://support.google.com/chrome/answer/95647?hl=en") None ;;
    ret {| online := false; check := None |}
  else
    addMessage lvl_info ADAPTER_ONLINE ;;
    r <- fetchWithTimeout ADAPTER_PROBE_URL ADAPTER_PROBE_TIMEOUT adapter_probe_options ;;
    match r with
    | Returned _ =>
        logInfo "Outbound connectivity check resolved (example.com)." LNone ;;
        ret {| online := true; check := Some "ok" |}
    | Thrown err =>
        logWarn "Outbound connectivity check failed:" (LText (message err)) ;;
        addMessage lvl_warn ADAPTER_TEST_FAILED ;;
        ret {| online := true; check := Some "failed" |}
    end.

(** ** The orchestrator (lines 194-231) *)

(** What the three awaited checks of one run returned. *)
Record DiagnosticsRun : Type := mkRun {
  localResults : list LocalResult;
  external : ExternalResult;
  netResult : NetResult
}.

(** Lines 195-200: the panel, the opening row, and the four checks. *)
Definition gatherResults : Prog DiagnosticsRun :=
  ensurePanel ;;
  addMessage lvl_info STARTING ;;
  checkFileProtocol ;;
  lr <- checkLocalServers ;;
  ext <- checkExternalConnectivity ;;
  nt <- checkNetworkAdapter ;;
  ret {| localResults := lr; external := ext; netResult := nt |}.

(** [localResults.every(r => !r.ok)] and [localResults.some(r => r.ok)]. *)
Definition every_not_ok (l : list LocalResult) : bool := forallb (fun r => negb (ok r)) l.
Definition some_ok (l : list LocalResult) : bool := existsb ok l.

(** Lines 202-230: the heuristic summaries, the console summary and the two
    closing buttons. *)
Definition summarise (run : DiagnosticsRun) : Prog unit :=
  protocol <- locationProtocol ;;
  (if String.eqb protocol "file:" && every_not_ok (localResults run)
   then addMessage lvl_warn FINDING_FILE_ORIGIN else ret tt) ;;
  (if negb (ext_ok (external run)) && some_ok (localResults run)
   then addMessage lvl_warn FINDING_EXTERNAL_BLOCKED else ret tt) ;;
  (if negb (online (netResult run))
   then addMessage lvl_error FINDING_OFFLINE else ret tt) ;;
  consoleGroup "%cDev Diagnostics Summary" ;;
  protocol' <- locationProtocol ;;
  consoleLog "Protocol:" (LText protocol') ;;
  consoleLog "Local ports checked:" (LPorts LOCAL_PORTS) ;;
  consoleLog "Local results:" (LLocal (localResults run)) ;;
  consoleLog "External check:" (LExternal (external run)) ;;
  consoleLog "Navigator online:" (LNet (netResult run)) ;;
  consoleGroupEnd ;;
  addActionButton "Copy checklist for ERR_CONNECTION_RESET"
    (CopyThenMessage CHECKLIST lvl_info "Checklist copied to clipboard")
    (Some "Copies a quick troubleshooting checklist") ;;
  addActionButton RUN_AGAIN RunChecksAgain (Some "Re-run diagnostics after changes").

(** [async function runAllChecks()]: no parameter, no [return]; the promise
    it gives fulfils with [undefined]. *)
Definition runAllChecks : Prog unit :=
  run <- gatherResults ;;
  summarise run.

(** A call [runAllChecks(config)] that passes an argument: the function
    declares no parameter and never reads [arguments], so the value is
    dropped.  [Config] is the shape such an argument would have. *)
Record Config : Type := mkConfig {
  localPorts : list N;
  localPath : string;
  externalProbeUrl : string;
  perPortTimeoutMs : N;
  externalTimeoutMs : N
}.

Definition runAllChecks_called_with (config : Config) : Prog unit := runAllChecks.

(* ================================================================== *)
(** * The event loop *)

(** A suspended call: the rest of an async function, to be resumed when the
    promise it awaits settles at [wake]. *)
Record Task : Type := mkTask { wake : N; cont : Prog unit }.

Record Loop : Type := mkLoop { page : State; tasks : list Task }.

Inductive UserEvent : Type :=
| DOMContentLoaded
| Click (i : nat)          (* the [i]-th child of [#dev-diagnostics-actions] *)
| ClickClose.

(** Run a call synchronously up to its first pending [await]. *)
Fixpoint run_sync (w : World) (p : Prog unit) (s : State) : State * option Task :=
  match p with
  | Ret _ => (s, None)
  | Vis e k =>
      match handle w e s with
      | Now x s' => run_sync w (k x) s'
      | Later d x s' => (s', Some {| wake := clock s' + d; cont := k x |})
      | Never s' => (s', None)
      end
  end.

Definition start (w : World) (p : Prog unit) (l : Loop) : Loop :=
  let '(s', t) := run_sync w p (page l) in
  {| page := s';
     tasks := tasks l ++ match t with Some t' => [t'] | None => [] end |}.

(** The [onClick] closures.  Line 230: empty the rows, then call
    [runAllChecks()] without awaiting it. *)
Definition fire (w : World) (h : Handler) (l : Loop) : Loop :=
  match h with
  | OpenWindow url => {| page := add_opened url (page l); tasks := tasks l |}
  | CopyThenMessage cmd lvl heading =>
      (* [copyToClipboard(cmd).then(() => addMessage(lvl, heading))]: the
         row is added when the promise fulfils, which in the fallback it
         does whatever [execCommand] returns *)
      match clipboard_api w with
      | AsyncClipboard true | ExecCommand true =>
          {| page := add_message {| level := lvl; text := heading |}
                       (set_clipboard cmd (page l));
             tasks := tasks l |}
      | ExecCommand false =>
          {| page := add_message {| level := lvl; text := heading |} (page l);
             tasks := tasks l |}
      | AsyncClipboard false | ExecCommandThrows => l
      end
  | ShowMessage lvl heading =>
      {| page := add_message {| level := lvl; text := heading |} (page l);
         tasks := tasks l |}
  | RunChecksAgain =>
      start w runAllChecks {| page := clear_messages (page l); tasks := tasks l |}
  end.

Definition at_time (t : N) (l : Loop) : Loop :=
  {| page := set_clock (N.max (clock (page l)) t) (page l); tasks := tasks l |}.

Definition deliver (w : World) (t : N) (ev : UserEvent) (l : Loop) : Loop :=
  let l0 := at_time t l in
  match ev with
  | DOMContentLoaded => start w runAllChecks l0
  | Click i =>
      if hidden (the_panel (page l0)) then l0
      else match nth_error (buttons (page l0)) i with
           | Some (Button _ h) => fire w h l0
           | _ => l0
           end
  | ClickClose => {| page := hide_panel (page l0); tasks := tasks l0 |}
  end.

(** The task to resume next: the earliest, the oldest among equals. *)
Fixpoint pick (ts : list Task) : option (Task * list Task) :=
  match ts with
  | [] => None
  | t :: rest =>
      match pick rest with
      | None => Some (t, [])
      | Some (m, others) =>
          if wake t <=? wake m then Some (t, rest) else Some (m, t :: others)
      end
  end.

Definition resume (w : World) (t : Task) (others : list Task) (l : Loop) : Loop :=
  start w (cont t) (at_time (wake t) {| page := page l; tasks := others |}).

(** One turn of the loop: the earlier of the next settled promise and the
    next user event ([evs] in the order the user makes them). *)
Definition turn (w : World) (evs : list (N * UserEvent)) (l : Loop)
  : option (list (N * UserEvent) * Loop) :=
  match pick (tasks l), evs with
  | None, [] => None
  | Some (t, others), [] => Some ([], resume w t others l)
  | None, (t, ev) :: evs' => Some (evs', deliver w t ev l)
  | Some (tk, others), (t, ev) :: evs' =>
      if wake tk <=? t then Some (evs, resume w tk others l)
      else Some (evs', deliver w t ev l)
  end.

(** Turns until nothing is left to do; [None] when [fuel] turns were not
    enough. *)
Fixpoint simulate (fuel : nat) (w : World) (evs : list (N * UserEvent)) (l : Loop)
  : option Loop :=
  match turn w evs l with
  | None => Some l
  | Some (evs', l') =>
      match fuel with
      | O => None
      | S fuel' => simulate fuel' w evs' l'
      end
  end.

Definition page_load (t : N) : Loop := {| page := initial_state t; tasks := [] |}.

(* ================================================================== *)
(** * Vocabulary of the statements *)

(** The rows, console entries and requests a step from [s] to [s'] added. *)
Definition rows_since (s s' : State) : list Message :=
  skipn (length (shown s)) (shown s').
Definition console_since (s s' : State) : list ConsoleEntry :=
  skipn (length (console s)) (console s').
Definition requests_since (s s' : State) : list RequestRecord :=
  skipn (length (requests s)) (requests s').

(** A finding, or any row, is emitted when its heading is among the rows
    added. *)
Definition emits (s s' : State) (heading : string) : Prop :=
  In heading (map text (rows_since s s')).

(** The rows each part of a run adds, as a function of what it found. *)
Definition protocol_rows (w : World) : list Message :=
  if String.eqb (location_protocol w) "file:"
  then [{| level := lvl_warn; text := FILE_PAGE |}]
  else [{| level := lvl_info; text := "Page opened over " ++ location_protocol w |}].

Definition local_rows (lr : list LocalResult) : list Message :=
  [{| level := lvl_info;
      text := "Checking local dev servers (ports: "
              ++ join ", " (map show LOCAL_PORTS) ++ ")" |};
   if some_ok lr then {| level := lvl_info; text := LOCAL_DETECTED |}
   else {| level := lvl_warn; text := LOCAL_NOT_DETECTED |}].

Definition external_rows (ext : ExternalResult) : list Message :=
  [{| level := lvl_info; text := CHECKING_EXTERNAL |};
   if ext_ok ext then {| level := lvl_info; text := EXTERNAL_OK |}
   else {| level := lvl_warn; text := EXTERNAL_UNABLE |}].

Definition check_failed (nt : NetResult) : bool :=
  match check nt with Some c => String.eqb c "failed" | None => false end.

Definition adapter_rows (nt : NetResult) : list Message :=
  if online nt then
    {| level := lvl_info; text := ADAPTER_ONLINE |} ::
    (if check_failed nt then [{| level := lvl_warn; text := ADAPTER_TEST_FAILED |}]
     else [])
  else [{| level := lvl_error; text := ADAPTER_OFFLINE |}].

Definition finding_rows (w : World) (run : DiagnosticsRun) : list Message :=
  (if String.eqb (location_protocol w) "file:" && every_not_ok (localResults run)
   then [{| level := lvl_warn; text := FINDING_FILE_ORIGIN |}] else [])
  ++ (if negb (ext_ok (external run)) && some_ok (localResults run)
      then [{| level := lvl_warn; text := FINDING_EXTERNAL_BLOCKED |}] else [])
  ++ (if negb (online (netResult run))
      then [{| level := lvl_error; text := FINDING_OFFLINE |}] else []).

Definition gathered_rows (w : World) (run : DiagnosticsRun) : list Message :=
  {| level := lvl_info; text := STARTING |} :: protocol_rows w
  ++ local_rows (localResults run)
  ++ external_rows (external run)
  ++ adapter_rows (netResult run).

Definition run_rows (w : World) (run : DiagnosticsRun) : list Message :=
  gathered_rows w run ++ finding_rows w run.

(** The console summary of lines 213-219. *)
Definition summary_entries (w : World) (run : DiagnosticsRun) : list ConsoleEntry :=
  [{| via := c_group; label := "%cDev Diagnostics Summary"; logged := LNone |};
   {| via := c_log; label := "Protocol:"; logged := LText (location_protocol w) |};
   {| via := c_log; label := "Local ports checked:"; logged := LPorts LOCAL_PORTS |};
   {| via := c_log; label := "Local results:"; logged := LLocal (localResults run) |};
   {| via := c_log; label := "External check:"; logged := LExternal (external run) |};
   {| via := c_log; label := "Navigator online:"; logged := LNet (netResult run) |};
   {| via := c_groupEnd; label := EmptyString; logged := LNone |}].

(** A request and the local-port result made from it agree. *)
Definition local_agrees (p : N) (req : RequestRecord) (r : LocalResult) : Prop :=
  port r = p /\
  req_url req = local_probe_url p (issued_at req) /\
  req_timeout req = LOCAL_TIMEOUT /\
  req_options req = local_probe_options /\
  match settled req with
  | Returned _ => ok r = true /\ info r = None
  | Thrown e => ok r = false /\ info r = Some (message e)
  end.

(** The ports of a loop, the requests it made and the results it pushed,
    in step. *)
Inductive probed : list N -> list RequestRecord -> list LocalResult -> Prop :=
| probed_nil : probed [] [] []
| probed_cons p req r ps reqs rs :
    local_agrees p req r -> probed ps reqs rs ->
    probed (p :: ps) (req :: reqs) (r :: rs).

(** The time a sequence of waits takes. *)
Definition total_wait (reqs : list RequestRecord) : N :=
  fold_right (fun r acc => waited r + acc) 0 reqs.

(** What the external check returns once its fetch has settled as [r]:
    nothing while the body is outstanding. *)
Definition external_verdict (r : Try Response) : option (N * ExternalResult) :=
  match r with
  | Thrown e => Some (0, ExternalFailed (message e))
  | Returned res =>
      match body res with
      | BodyJson d v =>
          match getProp v "ip" with
          | Returned ip =>
              match interpolate ip with
              | Returned _ => Some (d, ExternalOk ip)
              | Thrown e => Some (d, ExternalFailed (message e))
              end
          | Thrown e => Some (d, ExternalFailed (message e))
          end
      | BodyRejects d e => Some (d, ExternalFailed (message e))
      | BodyStalls => None
      end
  end.

(** The request the external check makes when it starts in [s], and the
    one the adapter check makes when the browser reports it online. *)
Definition external_request (w : World) (s : State) : RequestRecord :=
  let o := fetchWithTimeout_settles
             (net w EXTERNAL_IP_URL external_probe_options (clock s)) EXTERNAL_TIMEOUT in
  {| req_url := EXTERNAL_IP_URL; req_timeout := EXTERNAL_TIMEOUT;
     req_options := external_probe_options; issued_at := clock s;
     waited := fst o; settled := snd o |}.

Definition adapter_request (w : World) (s : State) : RequestRecord :=
  let o := fetchWithTimeout_settles
             (net w ADAPTER_PROBE_URL adapter_probe_options (clock s))
             ADAPTER_PROBE_TIMEOUT in
  {| req_url := ADAPTER_PROBE_URL; req_timeout := ADAPTER_PROBE_TIMEOUT;
     req_options := adapter_probe_options; issued_at := clock s;
     waited := fst o; settled := snd o |}.

(** What the adapter check returns for a probe that settled as [r]. *)
Definition adapter_verdict (r : Try Response) : NetResult :=
  match r with
  | Returned _ => {| online := true; check := Some "ok" |}
  | Thrown _ => {| online := true; check := Some "failed" |}
  end.

(** A wait that ended within its timeout, a timeout being a failure, and a
    request that carries no abort signal. *)
Definition bounded_wait (req : RequestRecord) : Prop :=
  waited req <= req_timeout req /\
  (waited req = req_timeout req -> settled req = Thrown timeout_error) /\
  signal (req_options req) = None.

(** What a step from [s] to [s'] did to the page: the rows and requests it
    appended and the time it took. *)
Definition advances (s s' : State) (rows : list Message)
           (reqs : list RequestRecord) (dt : N) : Prop :=
  shown s' = (shown s ++ rows)%list /\
  requests s' = (requests s ++ reqs)%list /\
  clock s' = clock s + dt.

(** The panel holds the rows of exactly one run, started on an emptied
    panel. *)
Definition one_run_panel (w : World) (rows : list Message) : Prop :=
  exists s s', exec w runAllChecks (clear_messages s) = Some (tt, s') /\ rows = shown s'.

(* ================================================================== *)
(** * Scenarios *)

Definition failed_to_fetch : JsError :=
  {| name := "TypeError"; message := "Failed to fetch" |}.

(** The body [{ ip: '203.0.113.45' }] of the public IP endpoint. *)
Definition ip_body : Json := JObject [("ip", JString "203.0.113.45")].

(** A [no-cors] response: status 0 and no readable body. *)
Definition opaque_response : Response :=
  {| status := 0;
     body := BodyRejects 0 {| name := "SyntaxError";
                              message := "Unexpected end of JSON input" |} |}.

Definition probes_port (p : N) (url : string) : bool :=
  String.prefix ("http://localhost:" ++ show p ++ "/") url.

(** A world given by what each of the three kinds of request meets. *)
Definition make_world (protocol : string) (onLine : bool)
           (localhost : N -> NetOutcome) (outside adapter : NetOutcome) : World :=
  {| location_protocol := protocol;
     navigator_onLine := onLine;
     net := fun url _ _ =>
       if String.eqb url EXTERNAL_IP_URL then outside
       else if String.eqb url ADAPTER_PROBE_URL then adapter
       else match find (fun p => probes_port p url) LOCAL_PORTS with
            | Some p => localhost p
            | None => NetRejects 1 failed_to_fetch
            end;
     clipboard_api := AsyncClipboard true |}.

Definition refused : N -> NetOutcome := fun _ => NetRejects 3 failed_to_fetch.

(** The page was opened from disk, no dev server runs, the internet is
    reachable. *)
Definition scenario_file_no_server : World :=
  make_world "file:" true refused
    (NetResolves 120 {| status := 200; body := BodyJson 5 ip_body |})
    (NetResolves 80 opaque_response).

Definition run_file_no_server : DiagnosticsRun :=
  {| localResults :=
       [{| port := 5500; ok := false; info := Some "Failed to fetch" |};
        {| port := 3000; ok := false; info := Some "Failed to fetch" |};
        {| port := 8080; ok := false; info := Some "Failed to fetch" |}];
     external := ExternalOk (Some (JString "203.0.113.45"));
     netResult := {| online := true; check := Some "ok" |} |}.

(** Served from port 5500, with every outbound request swallowed. *)
Definition scenario_external_blocked : World :=
  make_world "http:" true
    (fun p => if p =? 5500 then NetResolves 12 opaque_response
              else NetRejects 3 failed_to_fetch)
    NetPending NetPending.

Definition run_external_blocked : DiagnosticsRun :=
  {| localResults :=
       [{| port := 5500; ok := true; info := None |};
        {| port := 3000; ok := false; info := Some "Failed to fetch" |};
        {| port := 8080; ok := false; info := Some "Failed to fetch" |}];
     external := ExternalFailed "timeout";
     netResult := {| online := true; check := Some "failed" |} |}.

(** The browser reports the adapter offline. *)
Definition scenario_offline : World :=
  make_world "http:" false refused
    (NetRejects 1 failed_to_fetch) (NetRejects 1 failed_to_fetch).


(** It answers 200 with a body whose [ip] is an object with a member
    [toString]: [{ "ip": { "toString": 1 } }]. *)
Definition unprintable_body : Json :=
  JObject [("ip", JObject [("toString", JNumber 1)])].

Definition scenario_unprintable_ip : World :=
  make_world "http:" true refused
    (NetResolves 100 {| status := 200; body := BodyJson 5 unprintable_body |})
    (NetResolves 80 opaque_response).


(** Its headers come after 100 ms and its body a minute later. *)
Definition scenario_slow_body : World :=
  make_world "http:" true refused
    (NetResolves 100 {| status := 200; body := BodyJson 60000 ip_body |})
    (NetResolves 80 opaque_response).

(** Its headers come and its body never ends. *)
Definition scenario_stalled_body : World :=
  make_world "http:" true refused
    (NetResolves 100 {| status := 200; body := BodyStalls |})
    (NetResolves 80 opaque_response).

(** Nothing answers at all: every request stays pending. *)
Definition scenario_nothing_answers : World :=
  make_world "http:" true (fun _ => NetPending) NetPending NetPending.

(** A configuration that differs from the script's constants everywhere. *)
Definition custom_config : Config :=
  {| localPorts := [1234]; localPath := "/health";
     externalProbeUrl := "https://ip.example/json";
     perPortTimeoutMs := 500; externalTimeoutMs := 1000 |}.

(** The user reloads nothing and clicks "Run checks again" twice, half a
    second apart, some time after the first run has finished. *)
Definition two_quick_reruns : list (N * UserEvent) :=
  [(0, DOMContentLoaded); (20000, Click 6); (20500, Click 6)].

(** The loop after at most [n] turns, with the events still to come. *)
Fixpoint after_turns (n : nat) (w : World) (evs : list (N * UserEvent)) (l : Loop)
  : list (N * UserEvent) * Loop :=
  match n with
  | O => (evs, l)
  | S n' =>
      match turn w evs l with
      | None => (evs, l)
      | Some (evs', l') => after_turns n' w evs' l'
      end
  end.

(** The page once the run of the page load has finished, nothing
    answering. *)
Definition after_first_run : Loop :=
  snd (after_turns 6 scenario_nothing_answers [(0, DOMContentLoaded)] (page_load 0)).

(* ================================================================== *)
(** * Further vocabulary: buttons, growth, timing *)

(** [l'] is [l] with something appended. *)
Definition extends {A : Type} (l l' : list A) : Prop := exists more, l' = (l ++ more)%list.

(** What a step may do to the page: append rows, action elements, console
    entries and requests, let time pass, and leave a closed panel closed. *)
Definition grows (s s' : State) : Prop :=
  extends (shown s) (shown s') /\
  extends (buttons s) (buttons s') /\
  extends (console s) (console s') /\
  extends (requests s) (requests s') /\
  clock s <= clock s' /\
  (hidden (the_panel s) = true -> hidden (the_panel s') = true).


(** Requests made one after the other from time [t]: each is issued when
    the wait for the one before it has ended. *)
Fixpoint chained (t : N) (reqs : list RequestRecord) : Prop :=
  match reqs with
  | [] => True
  | r :: rest => issued_at r = t /\ chained (t + waited r) rest
  end.



(** The action elements each part of a run adds, as a function of what it
    found. *)
Definition protocol_buttons (w : World) : list ActionEl :=
  if String.eqb (location_protocol w) "file:" then
    [Button "Open Live Server docs"
       (OpenWindow "https://marketplace.visualstudio.com/items?itemName=ritwickdey.LiveServer");
     HintEl "VS Code Live Server extension (easy)";
     Button "Copy: start simple server (Python)"
       (CopyThenMessage "python3 -m http.server 5500" lvl_info
                        "Command copied: python3 -m http.server 5500")]
  else [].

Definition local_buttons (lr : list LocalResult) : list ActionEl :=
  if some_ok lr then []
  else [Button "Copy: npm start" (CopyThenMessage "npm start" lvl_info "Copied: npm start")].





(** The body read of a response ends within [B] ms, one way or the other. *)
Definition body_within (B : N) (res : Response) : Prop :=
  match body res with
  | BodyJson d _ => d <= B
  | BodyRejects d _ => d <= B
  | BodyStalls => False
  end.

(* ================================================================== *)
(** * app.js: the health-check widget *)

Module App.

(** [res.text()]. *)
Inductive TextRead : Type :=
| TextArrives (after : N) (s : string)
| TextRejects (after : N) (e : JsError)
| TextStalls.

(** What the widget reads of a response: [res.ok] comes from the status,
    [res.headers.get('content-type')] is [None] for [null]. *)
Record Response : Type := mkResponse {
  status : N;
  statusText : string;
  contentType : option string;
  json : BodyRead;
  text : TextRead
}.

(** [res.ok]: the status is in the range 200-299. *)
Definition ok (res : Response) : bool := (200 <=? status res) && (status res <=? 299).

(** What a request would meet if it were never aborted. *)
Inductive Outcome : Type :=
| Resolves (after : N) (res : Response)
| Fails (after : N) (e : JsError)
| Pending.

Definition Net : Type := string -> FetchOptions -> N -> Outcome.

(** How an awaited promise settles, and when; [Pends] when it never
    does. *)
Inductive Settle (A : Type) : Type :=
| Fulfils (t : N) (a : A)
| Rejects (t : N) (e : JsError)
| Pends.
Arguments Rejects {A} t e.
Arguments Pends {A}.

(** An async computation, started at a given time. *)
Definition Async (A : Type) : Type := N -> Settle A.

Definition async_ret {A : Type} (a : A) : Async A := fun t => Fulfils t a.

Definition async_bind {A B : Type} (m : Async A) (f : A -> Async B) : Async B :=
  fun t =>
    match m t with
    | Fulfils t' a => f a t'
    | Rejects t' e => Rejects t' e
    | Pends => Pends
    end.

#[export] Instance Monad_Async : Monad Async :=
  {| ret := @async_ret; bind := @async_bind |}.

(** [try { m } catch (err) { handler }]. *)
Definition tryCatch {A : Type} (m : Async A) (handler : JsError -> Async A) : Async A :=
  fun t =>
    match m t with
    | Rejects t' e => handler e t'
    | settled => settled
    end.

Definition throw {A : Type} (e : JsError) : Async A := fun t => Rejects t e.

(** The rejection of an aborted fetch; the wording is the browser's. *)
Definition abort_error : JsError :=
  {| name := "AbortError"; message := "The operation was aborted." |}.

(** Lines 52-63, [fetchWithTimeout(url, options, ms)]: the request carries
    the signal of a fresh [AbortController] that a timer aborts after [ms];
    the timer is cleared as soon as the fetch settles, so the signal no
    longer fires while the body is read. *)
Definition fetchWithTimeout (net : Net) (url : string) (options : FetchOptions)
           (ms : N) : Async Response :=
  fun t =>
    let init := {| method := method options; mode := mode options;
                   cache := cache options;
                   signal := Some {| aborts_after := ms |} |} in
    match net url init t with
    | Resolves d res => if d <? ms then Fulfils (t + d) res else Rejects (t + ms) abort_error
    | Fails d e => if d <? ms then Rejects (t + d) e else Rejects (t + ms) abort_error
    | Pending => Rejects (t + ms) abort_error
    end.

Definition readJson (res : Response) : Async Json :=
  fun t =>
    match json res with
    | BodyJson d v => Fulfils (t + d) v
    | BodyRejects d e => Rejects (t + d) e
    | BodyStalls => Pends
    end.

Definition readText (res : Response) : Async string :=
  fun t =>
    match text res with
    | TextArrives d s => Fulfils (t + d) s
    | TextRejects d e => Rejects (t + d) e
    | TextStalls => Pends
    end.

(** [String.prototype.includes]. *)
Definition includes (needle hay : string) : bool :=
  match String.index 0 needle hay with Some _ => true | None => false end.

(** [window.__BACKEND_URL__ || '/'] (line 3): an absent and an empty
    value both give ['/']. *)
Definition BACKEND_BASE (backend_url : option string) : string :=
  match backend_url with
  | Some u => if String.eqb u EmptyString then "/" else u
  | None => "/"
  end.

(** [{ url: u, ok: true, data }], [data] being parsed JSON or text. *)
Inductive HealthData : Type :=
| DataJson (v : Json)
| DataText (s : string).

Record HealthResult : Type := mkHealth {
  url : string;
  healthy : bool;
  data : HealthData
}.

Definition urlsToTry (base : string) : list string :=
  [base ++ "api/health"; base ++ "health"; base].

Definition get_options : FetchOptions :=
  {| method := Some "GET"; mode := None; cache := None; signal := None |}.

Definition HEALTH_TIMEOUT : N := 4000.

(** [new Error(`HTTP ${res.status} ${res.statusText} from ${u}`)]. *)
Definition http_error (res : Response) (u : string) : JsError :=
  {| name := "Error";
     message := "HTTP " ++ show (status res) ++ " " ++ statusText res ++ " from " ++ u |}.

Definition no_endpoint_error : JsError :=
  {| name := "Error"; message := "No health endpoints responded" |}.

(** One turn of the loop of lines 72-91: [inr] is the [return] of lines
    83 and 86; [inl] is the value [lastErr] takes on the way to the next
    URL, by the [continue] of line 77 or by the [catch] of line 88. *)
Definition attempt (net : Net) (u : string) : Async (JsError + HealthResult) :=
  tryCatch
    (res <- fetchWithTimeout net u get_options HEALTH_TIMEOUT ;;
     if negb (ok res) then ret (inl (http_error res u))
     else
       let ct := match contentType res with Some c => c | None => EmptyString end in
       if includes "application/json" ct then
         v <- readJson res ;;
         ret (inr {| url := u; healthy := true; data := DataJson v |})
       else
         s <- readText res ;;
         ret (inr {| url := u; healthy := true; data := DataText s |}))
    (fun err => ret (inl err)).

(** The loop, and the [throw] of line 92 after it. *)
Fixpoint tryUrls (net : Net) (urls : list string) (lastErr : option JsError)
  : Async HealthResult :=
  match urls with
  | [] => throw (match lastErr with Some e => e | None => no_endpoint_error end)
  | u :: rest =>
      r <- attempt net u ;;
      match r with
      | inr result => ret result
      | inl e => tryUrls net rest (Some e)
      end
  end.

(** Lines 65-93. *)
Definition fetchServerHealth (net : Net) (base : string) : Async HealthResult :=
  tryUrls net (urlsToTry base) None.

(** The status element, as [showStatus] uses it. *)
Record Element : Type := mkElement {
  classList : list string;
  textContent : string
}.

(** [DOMTokenList.remove] and [DOMTokenList.add]. *)
Definition class_remove (c : string) (l : list string) : list string :=
  filter (fun x => negb (String.eqb x c)) l.

Definition class_add (c : string) (l : list string) : list string :=
  if existsb (String.eqb c) l then l else (l ++ [c])%list.

(** Lines 44-49; [None] is a missing element. *)
Definition showStatus (statusEl : option Element) (isOk : bool) (msg : string)
  : option Element :=
  match statusEl with
  | None => None
  | Some el =>
      let classes := class_remove "error" (class_remove "ok" (classList el)) in
      Some {| classList := class_add (if isOk then "ok" else "error") classes;
              textContent := if isOk then "OK — " ++ msg else "ERROR — " ++ msg |}
  end.

(** A network outcome on which one turn of the loop moves on to the next
    URL: no answer within the timeout, a status outside 200-299, or a
    body whose read fails. *)
Definition is_json (res : Response) : bool :=
  includes "application/json" (match contentType res with Some c => c | None => EmptyString end).

Definition down (o : Outcome) : Prop :=
  match o with
  | Resolves d res =>
      HEALTH_TIMEOUT <= d \/ ok res = false \/
      (is_json res = true /\ exists dj e, json res = BodyRejects dj e) \/
      (is_json res = false /\ exists dt e, text res = TextRejects dt e)
  | Fails _ _ => True
  | Pending => True
  end.

(** One on which it returns [d]: an answer in time, with a status in
    200-299 and a body that is read. *)
Definition up (d : HealthData) (o : Outcome) : Prop :=
  exists after res,
    o = Resolves after res /\ after < HEALTH_TIMEOUT /\ ok res = true /\
    ((is_json res = true /\ exists dj v, json res = BodyJson dj v /\ d = DataJson v) \/
     (is_json res = false /\ exists dt s, text res = TextArrives dt s /\ d = DataText s)).

(** One on which nothing answers within the timeout. *)
Definition silent (o : Outcome) : Prop :=
  match o with
  | Resolves d _ => HEALTH_TIMEOUT <= d
  | Fails d _ => True
  | Pending => True
  end.

(** One on which it never ends: an answer in time with a good status and
    a body that never does. *)
Definition stuck (o : Outcome) : Prop :=
  exists after res,
    o = Resolves after res /\ after < HEALTH_TIMEOUT /\ ok res = true /\
    ((is_json res = true /\ json res = BodyStalls) \/
     (is_json res = false /\ text res = TextStalls)).

(** The request a turn of the loop makes. *)
Definition health_request : FetchOptions :=
  {| method := Some "GET"; mode := None; cache := None;
     signal := Some {| aborts_after := HEALTH_TIMEOUT |} |}.

(** A backend that serves [GET /] only with a greeting in plain text, as
    [server.js] does, on a base with a trailing slash. *)
Definition greeting_response : Response :=
  {| status := 200; statusText := "OK";
     contentType := Some "text/html; charset=utf-8";
     json := BodyRejects 0 {| name := "SyntaxError";
                              message := "Unexpected token G in JSON at position 0" |};
     text := TextArrives 2 "GameFlix Auth API Running..." |}.

Definition not_found_response : Response :=
  {| status := 404; statusText := "Not Found";
     contentType := Some "text/html; charset=utf-8";
     json := BodyRejects 0 {| name := "SyntaxError";
                              message := "Unexpected token < in JSON at position 0" |};
     text := TextArrives 2 "Cannot GET" |}.

Definition express_backend : Net :=
  fun u _ _ =>
    if String.eqb u "http://localhost:5001/" then Resolves 8 greeting_response
    else Resolves 8 not_found_response.

(** Nothing listens. *)
Definition no_backend : Net := fun _ _ _ => Fails 3 failed_to_fetch.

(** A backend whose greeting never ends. *)
Definition endless_backend : Net :=
  fun _ _ _ =>
    Resolves 8 {| status := 200; statusText := "OK"; contentType := None;
                  json := BodyStalls; text := TextStalls |}.

End App.

(* ================================================================== *)
(** * The page after each primitive *)

Local Open Scope list_scope.
Unset Implicit Arguments.

Section PageLemmas.
Variables (s : State).

Lemma shown_add_message m : shown (add_message m s) = shown s ++ [m].
Proof. reflexivity. Qed.

Lemma shown_add_console e : shown (add_console e s) = shown s.
Proof. reflexivity. Qed.

Lemma shown_add_request r : shown (add_request r s) = shown s.
Proof. reflexivity. Qed.

Lemma shown_add_actions els : shown (add_actions els s) = shown s.
Proof. reflexivity. Qed.

Lemma shown_ensure_panel : shown (ensure_panel s) = shown s.
Proof. reflexivity. Qed.

Lemma shown_tick d : shown (tick d s) = shown s.
Proof. reflexivity. Qed.

Lemma shown_set_clock t : shown (set_clock t s) = shown s.
Proof. reflexivity. Qed.

Lemma shown_clear_messages : shown (clear_messages s) = [].
Proof. reflexivity. Qed.

Lemma requests_add_message m : requests (add_message m s) = requests s.
Proof. reflexivity. Qed.

Lemma requests_add_console e : requests (add_console e s) = requests s.
Proof. reflexivity. Qed.

Lemma requests_add_request r : requests (add_request r s) = requests s ++ [r].
Proof. reflexivity. Qed.

Lemma requests_add_actions els : requests (add_actions els s) = requests s.
Proof. reflexivity. Qed.

Lemma requests_ensure_panel : requests (ensure_panel s) = requests s.
Proof. reflexivity. Qed.

Lemma requests_tick d : requests (tick d s) = requests s.
Proof. reflexivity. Qed.

Lemma clock_add_message m : clock (add_message m s) = clock s.
Proof. reflexivity. Qed.

Lemma clock_add_console e : clock (add_console e s) = clock s.
Proof. reflexivity. Qed.

Lemma clock_add_request r : clock (add_request r s) = clock s.
Proof. reflexivity. Qed.

Lemma clock_add_actions els : clock (add_actions els s) = clock s.
Proof. reflexivity. Qed.

Lemma clock_ensure_panel : clock (ensure_panel s) = clock s.
Proof. reflexivity. Qed.

Lemma clock_tick d : clock (tick d s) = clock s + d.
Proof. reflexivity. Qed.

Lemma console_add_message m : console (add_message m s) = console s.
Proof. reflexivity. Qed.

Lemma console_add_console e : console (add_console e s) = console s ++ [e].
Proof. reflexivity. Qed.

Lemma console_add_request r : console (add_request r s) = console s.
Proof. reflexivity. Qed.

Lemma console_add_actions els : console (add_actions els s) = console s.
Proof. reflexivity. Qed.

Lemma console_ensure_panel : console (ensure_panel s) = console s.
Proof. reflexivity. Qed.

Lemma console_tick d : console (tick d s) = console s.
Proof. reflexivity. Qed.
End PageLemmas.

Create Rewrite HintDb page.
#[export] Hint Rewrite
  shown_add_message shown_add_console shown_add_request shown_add_actions
  shown_ensure_panel shown_tick shown_set_clock
  requests_add_message requests_add_console requests_add_request
  requests_add_actions requests_ensure_panel requests_tick
  clock_add_message clock_add_console clock_add_request clock_add_actions
  clock_ensure_panel clock_tick
  console_add_message console_add_console console_add_request
  console_add_actions console_ensure_panel console_tick
  : page.

Lemma advances_refl s : advances s s [] [] 0.
Proof. unfold advances. rewrite !app_nil_r, N.add_0_r. auto. Qed.

Lemma advances_trans s1 s2 s3 rows1 rows2 reqs1 reqs2 dt1 dt2 :
  advances s1 s2 rows1 reqs1 dt1 ->
  advances s2 s3 rows2 reqs2 dt2 ->
  advances s1 s3 (rows1 ++ rows2) (reqs1 ++ reqs2) (dt1 + dt2).
Proof.
  intros (Ha & Hb & Hc) (Hd & He & Hf). unfold advances.
  rewrite Hd, He, Hf, Ha, Hb, Hc, !app_assoc. repeat split; lia.
Qed.

Lemma rows_since_app s s' rows : shown s' = shown s ++ rows -> rows_since s s' = rows.
Proof.
  intros H. unfold rows_since. rewrite H, skipn_app, skipn_all, Nat.sub_diag.
  reflexivity.
Qed.

Lemma requests_since_app s s' reqs :
  requests s' = requests s ++ reqs -> requests_since s s' = reqs.
Proof.
  intros H. unfold requests_since. rewrite H, skipn_app, skipn_all, Nat.sub_diag.
  reflexivity.
Qed.

Lemma console_since_app s s' es :
  console s' = console s ++ es -> console_since s s' = es.
Proof.
  intros H. unfold console_since. rewrite H, skipn_app, skipn_all, Nat.sub_diag.
  reflexivity.
Qed.

(* ================================================================== *)
(** * Running a sequence *)

Lemma exec_prog_bind w {A B} (m : Prog A) (f : A -> Prog B) s :
  exec w (prog_bind m f) s =
  match exec w m s with
  | Some (a, s') => exec w (f a) s'
  | None => None
  end.
Proof.
  revert s. induction m as [a | X e k IH]; intros s; simpl.
  - reflexivity.
  - destruct (handle w e s) as [x s' | d x s' | s']; auto.
Qed.

Lemma exec_bind w {A B} (m : Prog A) (f : A -> Prog B) s :
  exec w (bind m f) s =
  match exec w m s with
  | Some (a, s') => exec w (f a) s'
  | None => None
  end.
Proof. exact (exec_prog_bind w m f s). Qed.

Lemma exec_bind_inv w {A B} (m : Prog A) (f : A -> Prog B) s r :
  exec w (bind m f) s = Some r ->
  exists a s', exec w m s = Some (a, s') /\ exec w (f a) s' = Some r.
Proof.
  rewrite exec_bind. destruct (exec w m s) as [[a s'] |]; [| discriminate].
  intros H. exists a, s'. auto.
Qed.

Ltac page_facts :=
  unfold advances; autorewrite with page;
  repeat rewrite <- app_assoc; simpl app;
  repeat rewrite app_nil_r; repeat rewrite N.add_0_r.

(** Unfold the script's primitives and run the interpreter over them,
    leaving strings and page states alone. *)
Ltac run :=
  cbn [exec bind ret Monad_Prog prog_bind perform handle
       logInfo logWarn logError consoleLog consoleGroup consoleGroupEnd
       ensurePanel addMessage addActionButton locationProtocol navigatorOnLine
       dateNow fetchWithTimeout awaitJson].

Lemma fetchWithTimeout_settles_bound o t d r :
  fetchWithTimeout_settles o t = (d, r) ->
  d <= t /\ (d = t -> r = Thrown timeout_error).
Proof.
  unfold fetchWithTimeout_settles.
  destruct o as [d' res | d' e |];
    try destruct (N.ltb_spec d' t);
    intros Heq; inversion Heq; subst; split; auto; lia.
Qed.

Lemma total_wait_cons r reqs : total_wait (r :: reqs) = waited r + total_wait reqs.
Proof. reflexivity. Qed.

Lemma checkFileProtocol_run w s :
  exists s', exec w checkFileProtocol s = Some (tt, s') /\
             advances s s' (protocol_rows w) [] 0.
Proof.
  unfold checkFileProtocol, protocol_rows. run.
  destruct (String.eqb (location_protocol w) "file:"); run;
    (eexists; split; [reflexivity | page_facts; auto]).
Qed.

Lemma probePorts_run w ports :
  forall acc s,
  exists rs reqs s',
    exec w (probePorts ports acc) s = Some (acc ++ rs, s') /\
    probed ports reqs rs /\
    Forall bounded_wait reqs /\
    advances s s' [] reqs (total_wait reqs).
Proof.
  induction ports as [| p rest IH]; intros acc s.
  - exists [], [], s. simpl. rewrite app_nil_r.
    repeat split; auto using probed_nil; page_facts; auto.
  - cbn [probePorts]. run.
    destruct (fetchWithTimeout_settles _ _) as [d r] eqn:E.
    destruct (fetchWithTimeout_settles_bound _ _ _ _ E) as [Hd Ht].
    match goal with |- context [add_request ?q s] => set (rq := q) end.
    assert (Hrq : bounded_wait rq) by (subst rq; repeat split; auto).
    destruct r as [res | err]; run;
      match goal with |- context [exec w (probePorts rest ?a) ?st] =>
        destruct (IH a st) as (rs & reqs & s' & Hex & Hp & Hb & Hadv) end;
      eexists (_ :: rs), (rq :: reqs), s'; rewrite Hex, <- app_assoc;
      (split; [reflexivity |]); (split; [| split]);
      [ apply probed_cons; [subst rq; repeat split; reflexivity | exact Hp]
      | constructor; assumption
      | revert Hadv; page_facts; intros (H1 & H2 & H3); rewrite H1, H2, H3;
        repeat split; auto; rewrite total_wait_cons; subst rq; cbn [waited]; lia
      | apply probed_cons; [subst rq; repeat split; reflexivity | exact Hp]
      | constructor; assumption
      | revert Hadv; page_facts; intros (H1 & H2 & H3); rewrite H1, H2, H3;
        repeat split; auto; rewrite total_wait_cons; subst rq; cbn [waited]; lia ].
Qed.

Lemma some_ok_filter (rs : list LocalResult) :
  (0 <? length (filter ok rs))%nat = some_ok rs.
Proof.
  unfold some_ok. induction rs as [| r rs IH]; simpl; auto.
  destruct (ok r); simpl; auto.
Qed.

Lemma checkLocalServers_run w s :
  exists rs reqs s',
    exec w checkLocalServers s = Some (rs, s') /\
    probed LOCAL_PORTS reqs rs /\
    Forall bounded_wait reqs /\
    advances s s' (local_rows rs) reqs (total_wait reqs).
Proof.
  unfold checkLocalServers. run. rewrite exec_prog_bind.
  match goal with |- context [exec w (probePorts LOCAL_PORTS []) ?st] =>
    destruct (probePorts_run w LOCAL_PORTS [] st)
      as (rs & reqs & s1 & Hex & Hp & Hb & Hadv) end.
  rewrite Hex. cbn [app]. exists rs, reqs.
  rewrite some_ok_filter. unfold local_rows.
  revert Hadv. page_facts. intros (H1 & H2 & H3).
  destruct (some_ok rs); run;
    (eexists; split; [reflexivity |]); repeat split; auto;
    page_facts; rewrite ?H1, ?H2, ?H3; rewrite <- ?app_assoc; reflexivity.
Qed.

Section ExternalCheck.
Variables (w : World) (s : State).

Lemma external_request_bounded : bounded_wait (external_request w s).
Proof.
  unfold bounded_wait, external_request; cbn [waited req_timeout settled req_options].
  destruct (fetchWithTimeout_settles_bound _ _ _ _
              (surjective_pairing
                 (fetchWithTimeout_settles
                    (net w EXTERNAL_IP_URL external_probe_options (clock s))
                    EXTERNAL_TIMEOUT))) as [H1 H2].
  repeat split; auto.
Qed.

Lemma externalCatch_run e st :
  exists st', exec w (externalCatch e) st = Some (ExternalFailed (message e), st') /\
              advances st st' [{| level := lvl_warn; text := EXTERNAL_UNABLE |}] [] 0.
Proof.
  unfold externalCatch. run. eexists; split; [reflexivity |]. page_facts. auto.
Qed.

Lemma checkExternalConnectivity_run :
  match external_verdict (settled (external_request w s)) with
  | None => exec w checkExternalConnectivity s = None
  | Some (d, ext) =>
      exists s', exec w checkExternalConnectivity s = Some (ext, s') /\
                 advances s s' (external_rows ext) [external_request w s]
                          (waited (external_request w s) + d)
  end.
Proof.
  unfold checkExternalConnectivity, external_request.
  cbn [settled waited]. run. rewrite !clock_add_message, !clock_add_console.
  destruct (fetchWithTimeout_settles _ _) as [d r]. cbn [fst snd].
  unfold external_verdict.
  destruct r as [res | e]; run;
    [destruct (body res) as [d' v | d' e |]; run;
     [destruct (getProp v "ip") as [ip | e]; run;
      [destruct (interpolate ip) as [shown_ip | e]; run |] | | reflexivity] |];
    try (eexists; split; [reflexivity |]; page_facts; repeat split; auto; lia);
    match goal with |- context [exec w (externalCatch e) ?st] =>
      destruct (externalCatch_run e st) as (st' & Hex & H1 & H2 & H3) end;
    rewrite Hex; (eexists; split; [reflexivity |]);
    revert H1 H2 H3; page_facts; intros H1 H2 H3; rewrite H1, H2, H3;
    repeat split; auto; lia.
Qed.
End ExternalCheck.

Section AdapterCheck.
Variables (w : World) (s : State).

Lemma adapter_request_bounded : bounded_wait (adapter_request w s).
Proof.
  unfold bounded_wait, adapter_request; cbn [waited req_timeout settled req_options].
  destruct (fetchWithTimeout_settles_bound _ _ _ _
              (surjective_pairing
                 (fetchWithTimeout_settles
                    (net w ADAPTER_PROBE_URL adapter_probe_options (clock s))
                    ADAPTER_PROBE_TIMEOUT))) as [H1 H2].
  repeat split; auto.
Qed.

Lemma checkNetworkAdapter_offline :
  navigator_onLine w = false ->
  exists s', exec w checkNetworkAdapter s = Some ({| online := false; check := None |}, s') /\
             advances s s' [{| level := lvl_error; text := ADAPTER_OFFLINE |}] [] 0.
Proof.
  intros Hoff. unfold checkNetworkAdapter. run. rewrite Hoff. cbn [negb]. run.
  eexists; split; [reflexivity |]. page_facts. auto.
Qed.

Lemma checkNetworkAdapter_online :
  navigator_onLine w = true ->
  let nt := adapter_verdict (settled (adapter_request w s)) in
  exists s', exec w checkNetworkAdapter s = Some (nt, s') /\
             advances s s' (adapter_rows nt) [adapter_request w s]
                      (waited (adapter_request w s)).
Proof.
  intros Hon. unfold checkNetworkAdapter, adapter_request. cbn [settled waited].
  run. rewrite Hon. cbn [negb]. run.
  rewrite !clock_add_message, !clock_add_console.
  destruct (fetchWithTimeout_settles _ _) as [d r]. cbn [fst snd].
  destruct r as [res | e]; run;
    (eexists; split; [reflexivity |]); page_facts; repeat split; auto.
Qed.
End AdapterCheck.

Lemma summarise_run w run s :
  exists s', exec w (summarise run) s = Some (tt, s') /\
             advances s s' (finding_rows w run) [] 0 /\
             console s' = console s ++ summary_entries w run.
Proof.
  unfold summarise, finding_rows, summary_entries. run.
  destruct (String.eqb (location_protocol w) "file:" && every_not_ok (localResults run));
  destruct (negb (ext_ok (external run)) && some_ok (localResults run));
  destruct (negb (online (netResult run))); run;
    (eexists; split; [reflexivity |]); page_facts; repeat split; auto.
Qed.

(** The adapter check, whatever the browser reports. *)
Lemma checkNetworkAdapter_run w s :
  exists nt reqs s',
    exec w checkNetworkAdapter s = Some (nt, s') /\
    advances s s' (adapter_rows nt) reqs (total_wait reqs) /\
    (if navigator_onLine w
     then reqs = [adapter_request w s] /\
          nt = adapter_verdict (settled (adapter_request w s))
     else reqs = [] /\ nt = {| online := false; check := None |}).
Proof.
  destruct (navigator_onLine w) eqn:Hon.
  - destruct (checkNetworkAdapter_online w s Hon) as (s' & Hex & Hadv).
    eexists _, [adapter_request w s], s'. split; [exact Hex |]. split; auto.
    rewrite total_wait_cons. cbn [total_wait fold_right]. rewrite N.add_0_r. exact Hadv.
  - destruct (checkNetworkAdapter_offline w s Hon) as (s' & Hex & Hadv).
    eexists _, [], s'. split; [exact Hex |]. split; auto.
Qed.

Lemma gatherResults_run w s :
  exists lr reqsL sE,
    probed LOCAL_PORTS reqsL lr /\
    Forall bounded_wait reqsL /\
    clock sE = clock s + total_wait reqsL /\
    match external_verdict (settled (external_request w sE)) with
    | None => exec w gatherResults s = None
    | Some (d, ext) =>
        exists nt reqsA sA s1,
          exec w gatherResults s
          = Some ({| localResults := lr; external := ext; netResult := nt |}, s1) /\
          clock sA = clock sE + (waited (external_request w sE) + d) /\
          (if navigator_onLine w
           then reqsA = [adapter_request w sA] /\
                nt = adapter_verdict (settled (adapter_request w sA))
           else reqsA = [] /\ nt = {| online := false; check := None |}) /\
          advances s s1
            (gathered_rows w {| localResults := lr; external := ext; netResult := nt |})
            (reqsL ++ external_request w sE :: reqsA)
            (total_wait reqsL + (waited (external_request w sE) + d) + total_wait reqsA)
    end.
Proof.
  unfold gatherResults. run. rewrite exec_prog_bind.
  match goal with |- context [exec w checkFileProtocol ?st] =>
    destruct (checkFileProtocol_run w st) as (s0 & Hex0 & Hadv0) end.
  rewrite Hex0, exec_prog_bind.
  destruct (checkLocalServers_run w s0) as (lr & reqsL & sE & HexL & Hp & Hb & HadvL).
  rewrite HexL, exec_prog_bind.
  exists lr, reqsL, sE. split; [exact Hp |]. split; [exact Hb |].
  assert (HadvE : advances s sE
            ({| level := lvl_info; text := STARTING |} :: protocol_rows w ++ local_rows lr)
            reqsL (total_wait reqsL)).
  { revert Hadv0 HadvL. page_facts. intros (A1 & A2 & A3) (B1 & B2 & B3).
    rewrite B1, B2, B3, A1, A2, A3. rewrite <- ?app_assoc. repeat split; auto. }
  split; [apply HadvE |].
  pose proof (checkExternalConnectivity_run w sE) as HE.
  destruct (external_verdict (settled (external_request w sE))) as [[d ext] |].
  - destruct HE as (sA & HexE & HadvA).
    rewrite HexE, exec_prog_bind.
    destruct (checkNetworkAdapter_run w sA) as (nt & reqsA & s1 & HexA & Hadv1 & Hnt).
    rewrite HexA. run. exists nt, reqsA, sA, s1. split; [reflexivity |].
    split; [apply HadvA |]. split; [exact Hnt |].
    pose proof (advances_trans _ _ _ _ _ _ _ _ _ HadvE
                  (advances_trans _ _ _ _ _ _ _ _ _ HadvA Hadv1)) as H.
    unfold gathered_rows. cbn [localResults external netResult].
    revert H. unfold advances. rewrite <- ?app_assoc. cbn [app].
    intros (H1 & H2 & H3). rewrite H1, H2, H3, <- ?app_assoc.
    repeat split; auto. lia.
  - rewrite HE. reflexivity.
Qed.

(** What a completed gathering tells about the page. *)
Lemma gatherResults_inv w s run s1 :
  exec w gatherResults s = Some (run, s1) ->
  exists reqsL sE d reqsA sA,
    probed LOCAL_PORTS reqsL (localResults run) /\
    Forall bounded_wait reqsL /\
    clock sE = clock s + total_wait reqsL /\
    external_verdict (settled (external_request w sE)) = Some (d, external run) /\
    clock sA = clock sE + (waited (external_request w sE) + d) /\
    (if navigator_onLine w
     then reqsA = [adapter_request w sA] /\
          netResult run = adapter_verdict (settled (adapter_request w sA))
     else reqsA = [] /\ netResult run = {| online := false; check := None |}) /\
    advances s s1 (gathered_rows w run)
      (reqsL ++ external_request w sE :: reqsA)
      (total_wait reqsL + (waited (external_request w sE) + d) + total_wait reqsA).
Proof.
  intros Hex.
  destruct (gatherResults_run w s) as (lr & reqsL & sE & Hp & Hb & Hc & Hv).
  destruct (external_verdict (settled (external_request w sE))) as [[d ext] |] eqn:Ev.
  - destruct Hv as (nt & reqsA & sA & s1' & Hex' & HcA & Hnt & Hadv).
    rewrite Hex in Hex'. inversion Hex'; subst run s1'; clear Hex'.
    exists reqsL, sE, d, reqsA, sA. cbn [localResults external netResult].
    repeat split; auto; apply Hadv.
  - rewrite Hex in Hv. discriminate.
Qed.

(** The gathering completes unless the external body is outstanding for
    ever. *)
Lemma gatherResults_completes w s :
  (forall t d res,
      net w EXTERNAL_IP_URL external_probe_options t = NetResolves d res ->
      body res <> BodyStalls) ->
  exists run s1, exec w gatherResults s = Some (run, s1).
Proof.
  intros Hbody.
  destruct (gatherResults_run w s) as (lr & reqsL & sE & Hp & Hb & Hc & Hv).
  destruct (external_verdict (settled (external_request w sE))) as [[d ext] |] eqn:Ev.
  - destruct Hv as (nt & reqsA & sA & s1 & Hex & _). eauto.
  - exfalso. revert Ev. unfold external_verdict, external_request. cbn [settled].
    specialize (Hbody (clock sE)). unfold fetchWithTimeout_settles.
    destruct (net w EXTERNAL_IP_URL external_probe_options (clock sE)) as [d res | d e |];
      try destruct (d <? EXTERNAL_TIMEOUT); cbn [snd]; try discriminate.
    specialize (Hbody d res eq_refl).
    destruct (body res) as [d' v | d' e |]; try discriminate; [| congruence].
    destruct (getProp v "ip") as [ip |]; [destruct (interpolate ip) |]; discriminate.
Qed.

(** A run whose checks have returned completes, and the panel gains the
    rows of the checks followed by the findings. *)
Lemma runAllChecks_after_gather w s run s1 :
  exec w gatherResults s = Some (run, s1) ->
  exists s',
    exec w runAllChecks s = Some (tt, s') /\
    rows_since s s' = run_rows w run /\
    requests s' = requests s1 /\
    clock s' = clock s1 /\
    console s' = console s1 ++ summary_entries w run.
Proof.
  intros Hex. unfold runAllChecks. rewrite exec_bind, Hex.
  destruct (summarise_run w run s1) as (s' & Hs & (H1 & H2 & H3) & H4).
  destruct (gatherResults_inv _ _ _ _ Hex) as (? & ? & ? & ? & ? & _ & _ & _ & _ & _ & _ & Hadv).
  exists s'. split; [exact Hs |].
  rewrite app_nil_r in H2. rewrite N.add_0_r in H3.
  repeat split; auto.
  apply rows_since_app. rewrite H1. destruct Hadv as (G1 & _).
  rewrite G1, <- app_assoc. reflexivity.
Qed.

Lemma runAllChecks_inv w s s' :
  exec w runAllChecks s = Some (tt, s') ->
  exists run s1, exec w gatherResults s = Some (run, s1).
Proof.
  unfold runAllChecks. intros H. apply exec_bind_inv in H.
  destruct H as (run & s1 & H & _). eauto.
Qed.

(* ================================================================== *)
(** * Headings *)

Lemma every_not_ok_Forall lr :
  every_not_ok lr = true <-> Forall (fun r => ok r = false) lr.
Proof.
  unfold every_not_ok. rewrite forallb_forall, Forall_forall.
  split; intros H r Hr; specialize (H r Hr); destruct (ok r); auto; discriminate.
Qed.

Lemma some_ok_exists lr :
  some_ok lr = true <-> exists r, In r lr /\ ok r = true.
Proof. unfold some_ok. apply existsb_exists. Qed.

Lemma every_not_ok_excludes_some_ok lr :
  every_not_ok lr = true -> some_ok lr = false.
Proof.
  intros H. destruct (some_ok lr) eqn:E; auto.
  apply some_ok_exists in E. destruct E as (r & Hr & Hok).
  apply every_not_ok_Forall in H. rewrite Forall_forall in H.
  rewrite (H r Hr) in Hok. discriminate.
Qed.

(** No row of the checks carries the heading of a finding. *)
Lemma gathered_not_finding w run h :
  In h [FINDING_FILE_ORIGIN; FINDING_EXTERNAL_BLOCKED; FINDING_OFFLINE] ->
  ~ In h (map text (gathered_rows w run)).
Proof.
  unfold gathered_rows, protocol_rows, local_rows, external_rows, adapter_rows.
  destruct (String.eqb (location_protocol w) "file:"),
           (some_ok (localResults run)), (ext_ok (external run)),
           (online (netResult run)), (check_failed (netResult run));
    cbn; intros [<- | [<- | [<- | []]]] H;
    repeat (destruct H as [H | H]; [discriminate H |]); exact H.
Qed.

Lemma finding_file_origin_iff w run :
  In FINDING_FILE_ORIGIN (map text (finding_rows w run)) <->
  String.eqb (location_protocol w) "file:" && every_not_ok (localResults run) = true.
Proof.
  unfold finding_rows.
  destruct (String.eqb (location_protocol w) "file:" && every_not_ok (localResults run)),
           (negb (ext_ok (external run)) && some_ok (localResults run)),
           (negb (online (netResult run)));
    cbn; split; auto; intros H;
    repeat (destruct H as [H | H]; [discriminate H |]); try discriminate; destruct H.
Qed.

Lemma finding_external_blocked_iff w run :
  In FINDING_EXTERNAL_BLOCKED (map text (finding_rows w run)) <->
  negb (ext_ok (external run)) && some_ok (localResults run) = true.
Proof.
  unfold finding_rows.
  destruct (String.eqb (location_protocol w) "file:" && every_not_ok (localResults run)),
           (negb (ext_ok (external run)) && some_ok (localResults run)),
           (negb (online (netResult run)));
    cbn; split; auto; intros H;
    repeat (destruct H as [H | H]; [discriminate H |]); try discriminate; destruct H.
Qed.

Lemma emits_finding w s s' run h :
  rows_since s s' = run_rows w run ->
  In h [FINDING_FILE_ORIGIN; FINDING_EXTERNAL_BLOCKED; FINDING_OFFLINE] ->
  emits s s' h <-> In h (map text (finding_rows w run)).
Proof.
  intros Hrows Hh. unfold emits. rewrite Hrows. unfold run_rows.
  rewrite map_app, in_app_iff. split; auto.
  intros [H | H]; auto. destruct (gathered_not_finding w run h Hh H).
Qed.

(* ================================================================== *)
(** * The findings *)

(** C1.  In a run whose checks have returned, the finding "Likely cause:
    file:// + no dev server" is among the rows the run adds to the panel
    exactly when the page's protocol is [file:] and every local-port result
    of that run has [ok: false]. *)
Theorem file_origin_finding_iff w s run s1 :
  exec w gatherResults s = Some (run, s1) ->
  exists s',
    exec w runAllChecks s = Some (tt, s') /\
    (emits s s' FINDING_FILE_ORIGIN <->
     location_protocol w = "file:" /\
     Forall (fun r => ok r = false) (localResults run)).
Proof.
  intros Hex.
  destruct (runAllChecks_after_gather _ _ _ _ Hex) as (s' & Hrun & Hrows & _).
  exists s'. split; [exact Hrun |].
  rewrite (emits_finding _ _ _ _ _ Hrows) by (cbn; auto).
  rewrite finding_file_origin_iff, andb_true_iff, String.eqb_eq, every_not_ok_Forall.
  reflexivity.
Qed.

(** C4.  In a run whose checks have returned, a failed external check
    together with at least one local-port result with [ok: true] makes the
    run emit "Pattern: local server OK but external fetch fails"; so it is
    in the scenario of an [http:] page where port 5500 answered and the
    external probe timed out with the adapter online, where the file-origin
    finding is absent as well. *)
Theorem external_blocked_finding w s run s1 :
  exec w gatherResults s = Some (run, s1) ->
  exists s',
    exec w runAllChecks s = Some (tt, s') /\
    (ext_ok (external run) = false ->
     (exists r, In r (localResults run) /\ ok r = true) ->
     emits s s' FINDING_EXTERNAL_BLOCKED) /\
    (location_protocol w = "http:" ->
     (exists r, In r (localResults run) /\ port r = 5500 /\ ok r = true) ->
     external run = ExternalFailed (message timeout_error) ->
     online (netResult run) = true ->
     emits s s' FINDING_EXTERNAL_BLOCKED /\ ~ emits s s' FINDING_FILE_ORIGIN).
Proof.
  intros Hex.
  destruct (runAllChecks_after_gather _ _ _ _ Hex) as (s' & Hrun & Hrows & _).
  exists s'. split; [exact Hrun |].
  assert (Hgen : ext_ok (external run) = false ->
                 (exists r, In r (localResults run) /\ ok r = true) ->
                 emits s s' FINDING_EXTERNAL_BLOCKED).
  { intros Hext Hsome.
    rewrite (emits_finding _ _ _ _ _ Hrows) by (cbn; auto).
    rewrite finding_external_blocked_iff, Hext.
    apply some_ok_exists in Hsome. rewrite Hsome. reflexivity. }
  split; [exact Hgen |].
  intros Hproto (r & Hr & _ & Hok) Hext _. split.
  - apply Hgen; [rewrite Hext; reflexivity | eauto].
  - rewrite (emits_finding _ _ _ _ _ Hrows) by (cbn; auto).
    rewrite finding_file_origin_iff, Hproto. cbn. discriminate.
Qed.

(** C10.  No run emits both the file-origin finding and the
    external-blocked finding: the first needs every local-port result to
    have failed, the second needs one that did not. *)
Theorem findings_mutually_exclusive w s s' :
  exec w runAllChecks s = Some (tt, s') ->
  ~ (emits s s' FINDING_FILE_ORIGIN /\ emits s s' FINDING_EXTERNAL_BLOCKED).
Proof.
  intros Hrun.
  destruct (runAllChecks_inv _ _ _ Hrun) as (run & s1 & Hex).
  destruct (runAllChecks_after_gather _ _ _ _ Hex) as (s'' & Hrun' & Hrows & _).
  rewrite Hrun in Hrun'. inversion Hrun'; subst s''; clear Hrun'.
  rewrite (emits_finding _ _ _ _ FINDING_FILE_ORIGIN Hrows) by (cbn; auto).
  rewrite (emits_finding _ _ _ _ FINDING_EXTERNAL_BLOCKED Hrows) by (cbn; auto).
  rewrite finding_file_origin_iff, finding_external_blocked_iff, !andb_true_iff.
  intros ((_ & Hall) & (_ & Hsome)).
  rewrite (every_not_ok_excludes_some_ok _ Hall) in Hsome. discriminate.
Qed.

Lemma file_origin_finding_iff_witness :
  exists s1,
    exec scenario_file_no_server gatherResults (initial_state 0)
    = Some (run_file_no_server, s1) /\
    exists s',
      exec scenario_file_no_server runAllChecks (initial_state 0) = Some (tt, s') /\
      (emits (initial_state 0) s' FINDING_FILE_ORIGIN <->
       location_protocol scenario_file_no_server = "file:" /\
       Forall (fun r => ok r = false) (localResults run_file_no_server)).
Proof.
  eexists. split.
  - vm_compute. reflexivity.
  - eapply file_origin_finding_iff. vm_compute. reflexivity.
Defined.

Lemma external_blocked_finding_witness :
  exists s1,
    exec scenario_external_blocked gatherResults (initial_state 0)
    = Some (run_external_blocked, s1) /\
    exists s',
      exec scenario_external_blocked runAllChecks (initial_state 0) = Some (tt, s') /\
      emits (initial_state 0) s' FINDING_EXTERNAL_BLOCKED /\
      ~ emits (initial_state 0) s' FINDING_FILE_ORIGIN.
Proof.
  eexists. split.
  - vm_compute. reflexivity.
  - destruct (external_blocked_finding scenario_external_blocked (initial_state 0)
                run_external_blocked _ eq_refl) as (s' & Hrun & _ & Hscenario).
    exists s'. split; [exact Hrun |].
    apply Hscenario; try reflexivity.
    exists {| port := 5500; ok := true; info := None |}.
    repeat split. left. reflexivity.
Defined.

Lemma findings_mutually_exclusive_witness :
  exists s',
    exec scenario_file_no_server runAllChecks (initial_state 0) = Some (tt, s') /\
    ~ (emits (initial_state 0) s' FINDING_FILE_ORIGIN /\
       emits (initial_state 0) s' FINDING_EXTERNAL_BLOCKED).
Proof.
  eexists. split.
  - vm_compute. reflexivity.
  - apply (findings_mutually_exclusive scenario_file_no_server). vm_compute. reflexivity.
Defined.

(* ================================================================== *)
(** * The local-port probe *)

Lemma probed_ports P reqs rs :
  probed P reqs rs ->
  map port rs = P /\ length rs = length P /\ length reqs = length P.
Proof.
  induction 1 as [| p req r ps reqs rs Hag _ (IH1 & IH2 & IH3)]; cbn; auto.
  destruct Hag as (Hport & _). rewrite Hport, IH1, IH2, IH3. auto.
Qed.

(** C2.  Whatever the network does, the loop over a port list [P] returns
    one result per port of [P], in order, after one request per port, and
    so does [checkLocalServers] for the configured ports.  A completed run
    holds exactly that: its local results are one per configured port, in
    order, each made from its own request, and the run's remaining
    requests are the one of the external check and the adapter's. *)
Theorem local_probing_exhaustive w s :
  (forall P, exists rs s',
      exec w (probePorts P []) s = Some (rs, s') /\
      map port rs = P /\
      length rs = length P /\
      probed P (requests_since s s') rs) /\
  (exists rs s',
      exec w checkLocalServers s = Some (rs, s') /\
      map port rs = LOCAL_PORTS /\
      length rs = length LOCAL_PORTS /\
      probed LOCAL_PORTS (requests_since s s') rs) /\
  (forall run s1,
      exec w gatherResults s = Some (run, s1) ->
      exists s' reqsL reqE reqsA,
        exec w runAllChecks s = Some (tt, s') /\
        map port (localResults run) = LOCAL_PORTS /\
        length (localResults run) = length LOCAL_PORTS /\
        requests_since s s' = reqsL ++ reqE :: reqsA /\
        probed LOCAL_PORTS reqsL (localResults run) /\
        req_url reqE = EXTERNAL_IP_URL /\
        Forall (fun r => req_url r = ADAPTER_PROBE_URL) reqsA /\
        In {| via := c_log; label := "Local results:";
              logged := LLocal (localResults run) |} (console s')).
Proof.
  split; [| split].
  - intros P.
    destruct (probePorts_run w P [] s) as (rs & reqs & s' & Hex & Hp & _ & _ & Hreq & _).
    destruct (probed_ports _ _ _ Hp) as (Hports & Hlen & _).
    exists rs, s'. rewrite (requests_since_app _ _ _ Hreq). auto.
  - destruct (checkLocalServers_run w s) as (rs & reqs & s' & Hex & Hp & _ & _ & Hreq & _).
    destruct (probed_ports _ _ _ Hp) as (Hports & Hlen & _).
    exists rs, s'. rewrite (requests_since_app _ _ _ Hreq). auto.
  - intros run s1 Hex.
    destruct (runAllChecks_after_gather _ _ _ _ Hex) as (s' & Hrun & _ & Hreq & _ & Hcon).
    destruct (gatherResults_inv _ _ _ _ Hex)
      as (reqsL & sE & d & reqsA & sA & Hp & _ & _ & _ & _ & Hnt & _ & Hreqs & _).
    destruct (probed_ports _ _ _ Hp) as (Hports & Hlen & _).
    exists s', reqsL, (external_request w sE), reqsA.
    split; [exact Hrun |]. split; [exact Hports |]. split; [exact Hlen |].
    split; [apply requests_since_app; rewrite Hreq; exact Hreqs |].
    split; [exact Hp |]. split; [reflexivity |]. split.
    + destruct (navigator_onLine w); destruct Hnt as (-> & _); repeat constructor.
    + rewrite Hcon. apply in_or_app. right. cbn. tauto.
Qed.

Lemma local_probing_exhaustive_witness :
  exists s1,
    exec scenario_external_blocked gatherResults (initial_state 0)
    = Some (run_external_blocked, s1) /\
    exists s' reqsL reqE reqsA,
      exec scenario_external_blocked runAllChecks (initial_state 0) = Some (tt, s') /\
      map port (localResults run_external_blocked) = LOCAL_PORTS /\
      length (localResults run_external_blocked) = length LOCAL_PORTS /\
      requests_since (initial_state 0) s' = reqsL ++ reqE :: reqsA /\
      probed LOCAL_PORTS reqsL (localResults run_external_blocked) /\
      req_url reqE = EXTERNAL_IP_URL /\
      Forall (fun r => req_url r = ADAPTER_PROBE_URL) reqsA /\
      In {| via := c_log; label := "Local results:";
            logged := LLocal (localResults run_external_blocked) |} (console s').
Proof.
  eexists. split.
  - vm_compute. reflexivity.
  - eapply (proj2 (proj2 (local_probing_exhaustive scenario_external_blocked
                            (initial_state 0)))).
    vm_compute. reflexivity.
Defined.

(* ================================================================== *)
(** * The network adapter check *)

(** C5.  When the browser reports the adapter offline the check makes no
    request and returns [{ online: false }]; when it reports it online the
    check makes exactly one request, a HEAD to the well-known host, and
    returns [online: true] with [check: 'failed'] if that request failed and
    [check: 'ok'] if it did not. *)
Theorem adapter_check_short_circuits w s :
  (navigator_onLine w = false ->
   exists s',
     exec w checkNetworkAdapter s = Some ({| online := false; check := None |}, s') /\
     requests_since s s' = []) /\
  (navigator_onLine w = true ->
   exists nt req s',
     exec w checkNetworkAdapter s = Some (nt, s') /\
     requests_since s s' = [req] /\
     req_url req = ADAPTER_PROBE_URL /\
     method (req_options req) = Some "HEAD"%string /\
     online nt = true /\
     check nt = Some (match settled req with
                      | Returned _ => "ok"%string
                      | Thrown _ => "failed"%string
                      end)).
Proof.
  split; intros Hflag.
  - destruct (checkNetworkAdapter_offline w s Hflag) as (s' & Hex & _ & Hreq & _).
    exists s'. split; [exact Hex |]. apply requests_since_app. exact Hreq.
  - destruct (checkNetworkAdapter_online w s Hflag) as (s' & Hex & _ & Hreq & _).
    eexists _, (adapter_request w s), s'. split; [exact Hex |].
    split; [apply requests_since_app; exact Hreq |].
    repeat split; destruct (settled (adapter_request w s)); reflexivity.
Qed.

Lemma adapter_check_short_circuits_witness :
  (navigator_onLine scenario_offline = false /\
   exists s',
     exec scenario_offline checkNetworkAdapter (initial_state 0)
     = Some ({| online := false; check := None |}, s') /\
     requests_since (initial_state 0) s' = []) /\
  (navigator_onLine scenario_external_blocked = true /\
   exists nt req s',
     exec scenario_external_blocked checkNetworkAdapter (initial_state 0) = Some (nt, s') /\
     requests_since (initial_state 0) s' = [req] /\
     req_url req = ADAPTER_PROBE_URL /\
     method (req_options req) = Some "HEAD"%string /\
     online nt = true /\
     check nt = Some (match settled req with
                      | Returned _ => "ok"%string
                      | Thrown _ => "failed"%string
                      end)).
Proof.
  split; (split; [reflexivity |]).
  - exact (proj1 (adapter_check_short_circuits scenario_offline (initial_state 0)) eq_refl).
  - exact (proj2 (adapter_check_short_circuits scenario_external_blocked (initial_state 0))
                 eq_refl).
Defined.

(* ================================================================== *)
(** * Failures *)

Lemma external_verdict_thrown e d ext :
  external_verdict (Thrown e) = Some (d, ext) -> ext = ExternalFailed (message e).
Proof. cbn. intros H. inversion H. reflexivity. Qed.

Lemma external_verdict_rejected res d' e d ext :
  body res = BodyRejects d' e ->
  external_verdict (Returned res) = Some (d, ext) -> ext = ExternalFailed (message e).
Proof. cbn. intros ->. intros H. inversion H. reflexivity. Qed.

(** C3, as the script has it.  Provided the body of the external response
    does not stay outstanding for ever, a run completes, with the results
    of all the checks in the console summary, whatever fails on the way: a
    failed local-port probe gives [ok: false] with the error's message as
    [info], a failed external fetch or body read gives [ok: false] with the
    message as [error], and a failed adapter probe gives [online: true,
    check: 'failed'], without the message. *)
Theorem failures_recovered_locally w s :
  (forall t d res,
      net w EXTERNAL_IP_URL external_probe_options t = NetResolves d res ->
      body res <> BodyStalls) ->
  exists run s1 s' reqsL reqE reqsA,
    exec w gatherResults s = Some (run, s1) /\
    exec w runAllChecks s = Some (tt, s') /\
    requests_since s s' = reqsL ++ reqE :: reqsA /\
    probed LOCAL_PORTS reqsL (localResults run) /\
    req_url reqE = EXTERNAL_IP_URL /\
    (forall e, settled reqE = Thrown e -> external run = ExternalFailed (message e)) /\
    (forall res d e,
        settled reqE = Returned res -> body res = BodyRejects d e ->
        external run = ExternalFailed (message e)) /\
    (forall req e,
        In req reqsA -> settled req = Thrown e ->
        req_url req = ADAPTER_PROBE_URL /\
        netResult run = {| online := true; check := Some "failed"%string |}) /\
    (exists before, console s' = before ++ summary_entries w run) /\
    rows_since s s' = run_rows w run.
Proof.
  intros Hbody.
  destruct (gatherResults_completes w s Hbody) as (run & s1 & Hex).
  destruct (runAllChecks_after_gather _ _ _ _ Hex) as (s' & Hrun & Hrows & Hreq & _ & Hcon).
  destruct (gatherResults_inv _ _ _ _ Hex)
    as (reqsL & sE & d & reqsA & sA & Hp & _ & _ & Hv & _ & Hnt & _ & Hreqs & _).
  exists run, s1, s', reqsL, (external_request w sE), reqsA.
  split; [exact Hex |]. split; [exact Hrun |].
  split; [apply requests_since_app; rewrite Hreq; exact Hreqs |].
  split; [exact Hp |]. split; [reflexivity |].
  split; [| split; [| split; [| split; [eauto | exact Hrows]]]].
  - intros e He. rewrite He in Hv. eapply external_verdict_thrown; eauto.
  - intros res d' e He Hb. rewrite He in Hv. eapply external_verdict_rejected; eauto.
  - intros req e Hin He. destruct (navigator_onLine w).
    + destruct Hnt as (-> & Hnt). destruct Hin as [<- | []].
      split; [reflexivity |]. rewrite Hnt, He. reflexivity.
    + destruct Hnt as (-> & _). destruct Hin.
Qed.

Lemma failures_recovered_locally_witness :
  (forall t d res,
      net scenario_external_blocked EXTERNAL_IP_URL external_probe_options t
      = NetResolves d res -> body res <> BodyStalls) /\
  exists run s1 s' reqsL reqE reqsA,
    exec scenario_external_blocked gatherResults (initial_state 0) = Some (run, s1) /\
    exec scenario_external_blocked runAllChecks (initial_state 0) = Some (tt, s') /\
    requests_since (initial_state 0) s' = reqsL ++ reqE :: reqsA /\
    probed LOCAL_PORTS reqsL (localResults run) /\
    req_url reqE = EXTERNAL_IP_URL /\
    (forall e, settled reqE = Thrown e -> external run = ExternalFailed (message e)) /\
    (forall res d e,
        settled reqE = Returned res -> body res = BodyRejects d e ->
        external run = ExternalFailed (message e)) /\
    (forall req e,
        In req reqsA -> settled req = Thrown e ->
        req_url req = ADAPTER_PROBE_URL /\
        netResult run = {| online := true; check := Some "failed"%string |}) /\
    (exists before,
        console s' = before ++ summary_entries scenario_external_blocked run) /\
    rows_since (initial_state 0) s' = run_rows scenario_external_blocked run.
Proof.
  assert (H : forall t d res,
             net scenario_external_blocked EXTERNAL_IP_URL external_probe_options t
             = NetResolves d res -> body res <> BodyStalls)
    by (intros t d res Hnet; cbv in Hnet; discriminate Hnet).
  split; [exact H |].
  exact (failures_recovered_locally scenario_external_blocked (initial_state 0) H).
Defined.

(** C3 as stated fails twice.  The adapter's probe timed out and the result
    still says [online: true] and carries no message; and with a body that
    never ends the run never completes. *)
Lemma failure_recovery_counterexample :
  (exists s',
      exec scenario_external_blocked checkNetworkAdapter (initial_state 0)
      = Some ({| online := true; check := Some "failed"%string |}, s') /\
      map settled (requests s') = [Thrown timeout_error]) /\
  exec scenario_stalled_body runAllChecks (initial_state 0) = None.
Proof.
  split.
  - eexists. split; vm_compute; reflexivity.
  - vm_compute. reflexivity.
Qed.

(* ================================================================== *)
(** * Timeouts *)

Lemma probed_timeouts P reqs rs :
  probed P reqs rs -> Forall (fun r => req_timeout r = LOCAL_TIMEOUT) reqs.
Proof.
  induction 1 as [| p req r ps reqs rs (_ & _ & Ht & _) _ IH]; constructor; auto.
Qed.

Lemma total_wait_bound reqs t :
  Forall bounded_wait reqs -> Forall (fun r => req_timeout r = t) reqs ->
  total_wait reqs <= N.of_nat (length reqs) * t.
Proof.
  induction reqs as [| r reqs IH]; intros Hb Ht.
  - cbn. lia.
  - inversion Hb as [| ? ? (Hw & _) Hb']; inversion Ht as [| ? ? Hr Ht']; subst.
    rewrite total_wait_cons. specialize (IH Hb' Ht').
    cbn [length]. rewrite Nat2N.inj_succ. lia.
Qed.

(** C7, as the script has it.  Every call of [fetchWithTimeout] in a run
    settles within its timeout, as a rejection with [Error('timeout')] when
    the timeout is reached: 2000 ms for each local-port probe, so at most
    2000 ms per configured port for the whole loop, 4000 ms for the fetch of
    the external probe, 3000 ms for the adapter's probe.  No request carries
    an abort signal: the timer settles the promise the caller waits on. *)
Theorem fetch_waits_bounded w s run s1 :
  exec w gatherResults s = Some (run, s1) ->
  exists reqsL reqE reqsA,
    requests_since s s1 = reqsL ++ reqE :: reqsA /\
    Forall bounded_wait (reqsL ++ reqE :: reqsA) /\
    probed LOCAL_PORTS reqsL (localResults run) /\
    Forall (fun r => req_timeout r = LOCAL_TIMEOUT) reqsL /\
    total_wait reqsL <= N.of_nat (length LOCAL_PORTS) * LOCAL_TIMEOUT /\
    req_url reqE = EXTERNAL_IP_URL /\
    req_timeout reqE = EXTERNAL_TIMEOUT /\
    (waited reqE = EXTERNAL_TIMEOUT ->
     external run = ExternalFailed (message timeout_error)) /\
    Forall (fun r => req_url r = ADAPTER_PROBE_URL /\
                     req_timeout r = ADAPTER_PROBE_TIMEOUT) reqsA.
Proof.
  intros Hex.
  destruct (gatherResults_inv _ _ _ _ Hex)
    as (reqsL & sE & d & reqsA & sA & Hp & Hb & _ & Hv & _ & Hnt & _ & Hreqs & _).
  exists reqsL, (external_request w sE), reqsA.
  pose proof (probed_timeouts _ _ _ Hp) as Hto.
  pose proof (external_request_bounded w sE) as HbE.
  assert (HA : Forall bounded_wait reqsA /\
               Forall (fun r => req_url r = ADAPTER_PROBE_URL /\
                                req_timeout r = ADAPTER_PROBE_TIMEOUT) reqsA).
  { destruct (navigator_onLine w); destruct Hnt as (-> & _); split; auto;
      constructor; auto using adapter_request_bounded. }
  destruct HA as (HbA & HA).
  split; [apply requests_since_app; exact Hreqs |].
  split; [apply Forall_app; split; auto |].
  split; [exact Hp |]. split; [exact Hto |].
  split.
  { destruct (probed_ports _ _ _ Hp) as (_ & _ & Hlen). rewrite <- Hlen.
    apply total_wait_bound; auto. }
  split; [reflexivity |]. split; [reflexivity |]. split; [| exact HA].
  intros Hw. destruct HbE as (_ & Hto' & _). rewrite (Hto' Hw) in Hv.
  eapply external_verdict_thrown; eauto.
Qed.

Lemma fetch_waits_bounded_witness :
  exists s1,
    exec scenario_external_blocked gatherResults (initial_state 0)
    = Some (run_external_blocked, s1) /\
    exists reqsL reqE reqsA,
      requests_since (initial_state 0) s1 = reqsL ++ reqE :: reqsA /\
      Forall bounded_wait (reqsL ++ reqE :: reqsA) /\
      probed LOCAL_PORTS reqsL (localResults run_external_blocked) /\
      Forall (fun r => req_timeout r = LOCAL_TIMEOUT) reqsL /\
      total_wait reqsL <= N.of_nat (length LOCAL_PORTS) * LOCAL_TIMEOUT /\
      req_url reqE = EXTERNAL_IP_URL /\
      req_timeout reqE = EXTERNAL_TIMEOUT /\
      (waited reqE = EXTERNAL_TIMEOUT ->
       external run_external_blocked = ExternalFailed (message timeout_error)) /\
      Forall (fun r => req_url r = ADAPTER_PROBE_URL /\
                       req_timeout r = ADAPTER_PROBE_TIMEOUT) reqsA.
Proof.
  eexists. split.
  - vm_compute. reflexivity.
  - eapply (fetch_waits_bounded scenario_external_blocked). vm_compute. reflexivity.
Defined.

(** C7 as stated fails for the external probe: its fetch resolved in time,
    the check then waited a minute for the body, fifteen times the timeout,
    and reported success; the one request it made carried no abort signal. *)
Lemma external_probe_wait_exceeds_timeout :
  exists s',
    exec scenario_slow_body checkExternalConnectivity (initial_state 0)
    = Some (ExternalOk (Some (JString "203.0.113.45")), s') /\
    clock s' = 60100 /\
    ~ clock s' <= clock (initial_state 0) + EXTERNAL_TIMEOUT /\
    map (fun r => signal (req_options r)) (requests s') = [None].
Proof.
  eexists. split; [vm_compute; reflexivity |].
  split; [reflexivity |]. split; [vm_compute; intros H; apply H; reflexivity |].
  reflexivity.
Qed.

(* ================================================================== *)
(** * The entry point *)

(** C8, as the script has it.  [runAllChecks] takes no configuration: a
    value passed to it is dropped, and every run probes ports 5500, 3000
    and 8080 at path [/] with 2000 ms each and the public IP endpoint with
    4000 ms.  It returns nothing: the results of the run go to the panel
    and to the console summary. *)
Theorem entry_point_ignores_config config w s run s1 :
  exec w gatherResults s = Some (run, s1) ->
  exists s' reqsL reqE reqsA,
    exec w (runAllChecks_called_with config) s = Some (tt, s') /\
    requests_since s s' = reqsL ++ reqE :: reqsA /\
    probed [5500; 3000; 8080] reqsL (localResults run) /\
    Forall (fun r => req_timeout r = 2000) reqsL /\
    LOCAL_PATH = "/"%string /\
    req_url reqE = "https://api.ipify.org?format=json"%string /\
    req_timeout reqE = 4000 /\
    (exists before, console s' = before ++ summary_entries w run).
Proof.
  intros Hex.
  destruct (runAllChecks_after_gather _ _ _ _ Hex) as (s' & Hrun & _ & Hreq & _ & Hcon).
  destruct (gatherResults_inv _ _ _ _ Hex)
    as (reqsL & sE & d & reqsA & sA & Hp & _ & _ & _ & _ & _ & _ & Hreqs & _).
  exists s', reqsL, (external_request w sE), reqsA.
  split; [exact Hrun |].
  split; [apply requests_since_app; rewrite Hreq; exact Hreqs |].
  split; [exact Hp |].
  split; [exact (probed_timeouts _ _ _ Hp) |].
  repeat split. eauto.
Qed.

Lemma entry_point_ignores_config_witness :
  exists s1,
    exec scenario_file_no_server gatherResults (initial_state 0)
    = Some (run_file_no_server, s1) /\
    exists s' reqsL reqE reqsA,
      exec scenario_file_no_server (runAllChecks_called_with custom_config)
           (initial_state 0) = Some (tt, s') /\
      requests_since (initial_state 0) s' = reqsL ++ reqE :: reqsA /\
      probed [5500; 3000; 8080] reqsL (localResults run_file_no_server) /\
      Forall (fun r => req_timeout r = 2000) reqsL /\
      LOCAL_PATH = "/"%string /\
      req_url reqE = "https://api.ipify.org?format=json"%string /\
      req_timeout reqE = 4000 /\
      (exists before,
          console s' = before ++ summary_entries scenario_file_no_server run_file_no_server).
Proof.
  eexists. split.
  - vm_compute. reflexivity.
  - eapply entry_point_ignores_config. vm_compute. reflexivity.
Defined.

(** C8 as stated fails: called with a configuration of one port, 1234, and
    timeouts of 500 and 1000 ms, the run probes the three built-in ports
    with the built-in timeouts, and what the call returns is [undefined]. *)
Lemma supplied_config_not_used :
  localPorts custom_config = [1234] /\
  perPortTimeoutMs custom_config = 500 /\
  externalTimeoutMs custom_config = 1000 /\
  exists s',
    exec scenario_file_no_server (runAllChecks_called_with custom_config)
         (initial_state 0) = Some (tt, s') /\
    map port (localResults run_file_no_server) = [5500; 3000; 8080] /\
    In {| via := c_log; label := "Local results:";
          logged := LLocal (localResults run_file_no_server) |} (console s') /\
    map req_timeout (requests s') = [2000; 2000; 2000; 4000; 3000] /\
    map req_url (requests s')
    = ["http://localhost:5500/?_dev_diag=0"; "http://localhost:3000/?_dev_diag=3";
       "http://localhost:8080/?_dev_diag=6"; "https://api.ipify.org?format=json";
       "https://example.com/"]%string.
Proof.
  repeat (split; [reflexivity |]).
  eexists. split; [vm_compute; reflexivity |].
  split; [reflexivity |]. split; [| split; reflexivity].
  cbn. tauto.
Qed.

(* ================================================================== *)
(** * The external check *)







(** The same check on a body whose [ip] cannot be converted to a string:
    the fetch resolved with 200, the body parsed, the read of [json.ip]
    succeeded, and the check returns [ok: false] with the conversion's
    [TypeError]. *)
Lemma unprintable_ip_reported_as_failure :
  exists s',
    exec scenario_unprintable_ip checkExternalConnectivity (initial_state 0)
    = Some (ExternalFailed "Cannot convert object to primitive value", s').
Proof. eexists. vm_compute. reflexivity. Qed.


(* ================================================================== *)
(** * Reruns *)

Lemma simulate_idle fuel w evs l :
  turn w evs l = None -> simulate fuel w evs l = Some l.
Proof. intros H. destruct fuel; cbn [simulate]; rewrite H; reflexivity. Qed.

Lemma simulate_turn fuel w evs l evs' l' :
  turn w evs l = Some (evs', l') ->
  simulate (S fuel) w evs l = simulate fuel w evs' l'.
Proof. intros H. cbn [simulate]. rewrite H. reflexivity. Qed.

Lemma set_clock_tick d s : set_clock (N.max (clock s) (clock s + d)) s = tick d s.
Proof. unfold tick. rewrite N.max_r by lia. reflexivity. Qed.

(** A call that is alone on the loop runs there as [exec] runs it. *)
Lemma simulate_solo w (p : Prog unit) :
  forall s s',
    exec w p s = Some (tt, s') ->
    exists fuel,
      simulate fuel w [] (start w p {| page := s; tasks := [] |})
      = Some {| page := s'; tasks := [] |}.
Proof.
  induction p as [a | X e k IH]; intros s s' Hex.
  - cbn in Hex. inversion Hex; subst. exists O. reflexivity.
  - cbn [exec] in Hex. unfold start in *. cbn [run_sync page tasks app].
    destruct (handle w e s) as [x s1 | d x s1 | s1] eqn:Hh.
    + destruct (IH x s1 s' Hex) as (fuel & Hsim). eauto.
    + destruct (IH x (tick d s1) s' Hex) as (fuel & Hsim).
      exists (S fuel). rewrite <- Hsim. apply simulate_turn.
      cbn [turn tasks pick]. unfold resume, at_time, start.
      cbn [page tasks wake cont app]. rewrite set_clock_tick. reflexivity.
    + discriminate.
Qed.

(** A rerun leaves the suspended calls of earlier runs on the loop. *)
Lemma rerun_keeps_tasks w l :
  exists new, tasks (fire w RunChecksAgain l) = tasks l ++ new.
Proof.
  cbn [fire]. unfold start. cbn [page tasks].
  destruct (run_sync w runAllChecks (clear_messages (page l))) as [s' t].
  cbn [tasks]. eauto.
Qed.

Lemma run_rows_length w run : (length (run_rows w run) <= 11)%nat.
Proof.
  unfold run_rows, gathered_rows, protocol_rows, local_rows, external_rows,
    adapter_rows, finding_rows.
  destruct (String.eqb (location_protocol w) "file:"),
           (every_not_ok (localResults run)), (some_ok (localResults run)),
           (ext_ok (external run)), (online (netResult run)),
           (check_failed (netResult run)); cbn; lia.
Qed.

Lemma one_run_panel_short w rows :
  one_run_panel w rows -> (length rows <= 11)%nat.
Proof.
  intros (s & s' & Hrun & ->).
  destruct (runAllChecks_inv _ _ _ Hrun) as (run & s1 & Hex).
  destruct (runAllChecks_after_gather _ _ _ _ Hex) as (s'' & Hrun' & Hrows & _).
  rewrite Hrun in Hrun'. inversion Hrun'; subst s''.
  unfold rows_since in Hrows. rewrite shown_clear_messages in Hrows.
  cbn [length skipn] in Hrows. rewrite Hrows. apply run_rows_length.
Qed.

(** C6, as the script has it.  "Run checks again" empties the rows of the
    one shared panel and starts a run; the suspended calls of earlier runs
    stay on the loop, and rows carry no mark of the run that wrote them.
    When no call is suspended at the click, the panel ends holding the rows
    of the rerun alone. *)
Theorem rerun_when_idle w l t i lbl s' :
  tasks l = [] ->
  hidden (the_panel (page l)) = false ->
  nth_error (buttons (page l)) i = Some (Button lbl RunChecksAgain) ->
  exec w runAllChecks (clear_messages (page (at_time t l))) = Some (tt, s') ->
  (exists new, tasks (fire w RunChecksAgain l) = tasks l ++ new) /\
  (exists fuel,
      simulate fuel w [(t, Click i)] l = Some {| page := s'; tasks := [] |}) /\
  one_run_panel w (shown s').
Proof.
  intros Hidle Hshown Hbutton Hrun.
  split; [apply rerun_keeps_tasks |]. split.
  - destruct (simulate_solo w runAllChecks _ _ Hrun) as (fuel & Hsim).
    exists (S fuel). rewrite <- Hsim. apply simulate_turn.
    unfold turn. rewrite Hidle. cbn [pick]. unfold deliver.
    change (hidden (the_panel (page (at_time t l)))) with (hidden (the_panel (page l))).
    change (buttons (page (at_time t l))) with (buttons (page l)).
    rewrite Hshown, Hbutton. cbn [fire]. unfold at_time at 2. cbn [tasks].
    rewrite Hidle. reflexivity.
  - exists (page (at_time t l)), s'. auto.
Qed.

Lemma rerun_when_idle_witness :
  exists s',
    (tasks after_first_run = [] /\
     hidden (the_panel (page after_first_run)) = false /\
     nth_error (buttons (page after_first_run)) 6 = Some (Button RUN_AGAIN RunChecksAgain) /\
     exec scenario_nothing_answers runAllChecks
          (clear_messages (page (at_time 20000 after_first_run))) = Some (tt, s')) /\
    (exists new,
        tasks (fire scenario_nothing_answers RunChecksAgain after_first_run)
        = tasks after_first_run ++ new) /\
    (exists fuel,
        simulate fuel scenario_nothing_answers [(20000, Click 6)] after_first_run
        = Some {| page := s'; tasks := [] |}) /\
    one_run_panel scenario_nothing_answers (shown s').
Proof.
  eexists.
  assert (H1 : tasks after_first_run = []) by reflexivity.
  assert (H2 : hidden (the_panel (page after_first_run)) = false) by reflexivity.
  assert (H3 : nth_error (buttons (page after_first_run)) 6
               = Some (Button RUN_AGAIN RunChecksAgain)) by reflexivity.
  assert (H4 : exec scenario_nothing_answers runAllChecks
                 (clear_messages (page (at_time 20000 after_first_run)))
               = Some (tt, _)) by (vm_compute; reflexivity).
  split; [exact (conj H1 (conj H2 (conj H3 H4))) |].
  exact (rerun_when_idle scenario_nothing_answers after_first_run 20000 6 _ _ H1 H2 H3 H4).
Defined.

(** C6 as stated fails.  The second click comes while the first rerun
    waits for its probe of port 5500: both runs then go on, and the panel
    ends with thirteen rows, those of the second rerun mixed with the late
    ones of the first; no single run writes that many. *)
Lemma stale_rows_reach_panel :
  let w := scenario_nothing_answers in
  nth_error (buttons (page after_first_run)) 6 = Some (Button RUN_AGAIN RunChecksAgain) /\
  (exists l8,
      after_turns 8 w two_quick_reruns (page_load 0) = ([], l8) /\
      clock (page l8) = 20500 /\
      map wake (tasks l8) = [22000; 22500]) /\
  exists l,
    simulate 100 w two_quick_reruns (page_load 0) = Some l /\
    tasks l = [] /\
    map text (shown (page l))
    = [STARTING; "Page opened over http:";
       "Checking local dev servers (ports: 5500, 3000, 8080)";
       LOCAL_NOT_DETECTED; CHECKING_EXTERNAL;
       LOCAL_NOT_DETECTED; CHECKING_EXTERNAL;
       EXTERNAL_UNABLE; ADAPTER_ONLINE;
       EXTERNAL_UNABLE; ADAPTER_ONLINE;
       ADAPTER_TEST_FAILED; ADAPTER_TEST_FAILED]%string /\
    ~ one_run_panel w (shown (page l)).
Proof.
  cbv zeta. split; [reflexivity |]. split.
  - eexists. split; [vm_compute; reflexivity |]. split; reflexivity.
  - eexists. split; [vm_compute; reflexivity |]. split; [reflexivity |].
    split; [reflexivity |].
    intros H. apply one_run_panel_short in H. cbn in H. lia.
Qed.

(* ================================================================== *)
(** * What no part of the script undoes *)

Lemma extends_refl {A} (l : list A) : extends l l.
Proof. exists []. rewrite app_nil_r. reflexivity. Qed.

Lemma extends_app {A} (l more : list A) : extends l (l ++ more).
Proof. exists more. reflexivity. Qed.

Lemma extends_trans {A} (l1 l2 l3 : list A) :
  extends l1 l2 -> extends l2 l3 -> extends l1 l3.
Proof.
  intros (a & ->) (b & ->). exists (a ++ b). rewrite app_assoc. reflexivity.
Qed.

Lemma grows_refl s : grows s s.
Proof. unfold grows. repeat split; auto using extends_refl. lia. Qed.

Lemma grows_trans s1 s2 s3 : grows s1 s2 -> grows s2 s3 -> grows s1 s3.
Proof.
  intros (A1 & A2 & A3 & A4 & A5 & A6) (B1 & B2 & B3 & B4 & B5 & B6).
  unfold grows. repeat split; eauto using extends_trans. lia.
Qed.

Lemma grows_set_clock t s : clock s <= t -> grows s (set_clock t s).
Proof. intros H. unfold grows. repeat split; auto using extends_refl. Qed.

Lemma grows_tick d s : grows s (tick d s).
Proof. apply grows_set_clock. lia. Qed.

Lemma grows_add_console e s : grows s (add_console e s).
Proof.
  unfold grows. repeat split; auto using extends_refl; try apply extends_app. cbn. lia.
Qed.

Lemma grows_add_request r s : grows s (add_request r s).
Proof.
  unfold grows. repeat split; auto using extends_refl; try apply extends_app. cbn. lia.
Qed.

Lemma grows_ensure_panel s : grows s (ensure_panel s).
Proof. unfold grows. repeat split; auto using extends_refl. cbn. lia. Qed.

Lemma grows_add_message m s : grows s (add_message m s).
Proof.
  unfold grows. repeat split; auto using extends_refl; try apply extends_app. cbn. lia.
Qed.

Lemma grows_add_actions els s : grows s (add_actions els s).
Proof.
  unfold grows. repeat split; auto using extends_refl; try apply extends_app. cbn. lia.
Qed.

(** Every effect of the script grows the page. *)
Lemma handle_grows w X (e : Eff X) s :
  match handle w e s with
  | Now _ s' => grows s s'
  | Later d _ s' => grows s (tick d s')
  | Never s' => grows s s'
  end.
Proof.
  destruct e; cbn [handle];
    auto using grows_refl, grows_add_console, grows_ensure_panel, grows_add_message,
               grows_add_actions.
  - destruct (fetchWithTimeout_settles _ _) as [d r].
    eapply grows_trans; [apply grows_add_request | apply grows_tick].
  - destruct (body res); auto using grows_refl, grows_tick.
Qed.

(** A call that returns has grown the page. *)
Lemma exec_grows w A (p : Prog A) s a s' :
  exec w p s = Some (a, s') -> grows s s'.
Proof.
  revert s. induction p as [b | X e k IH]; intros s Hex.
  - cbn in Hex. inversion Hex; subst. apply grows_refl.
  - cbn [exec] in Hex. pose proof (handle_grows w X e s) as Hg.
    destruct (handle w e s) as [x s1 | d x s1 | s1].
    + eapply grows_trans; [exact Hg | eauto].
    + eapply grows_trans; [exact Hg | eauto].
    + discriminate.
Qed.

(** X1.  Each of the four checks, and [runAllChecks] itself, when it
    returns has only appended to the panel's rows, to its action elements,
    to the console and to the requests made, however the network behaved;
    time has not gone back, and a panel that was closed is still closed.
    (The click handler of "Run checks again", which empties the rows before
    it calls [runAllChecks], is not one of these functions.) *)
Theorem checks_only_append w s :
  (forall s', exec w checkFileProtocol s = Some (tt, s') -> grows s s') /\
  (forall rs s', exec w checkLocalServers s = Some (rs, s') -> grows s s') /\
  (forall ext s', exec w checkExternalConnectivity s = Some (ext, s') -> grows s s') /\
  (forall nt s', exec w checkNetworkAdapter s = Some (nt, s') -> grows s s') /\
  (forall s', exec w runAllChecks s = Some (tt, s') -> grows s s').
Proof.
  repeat split; intros; eapply exec_grows; eauto.
Qed.

Lemma checks_only_append_witness :
  exists s',
    exec scenario_file_no_server runAllChecks (initial_state 0) = Some (tt, s') /\
    grows (initial_state 0) s'.
Proof.
  eexists. split.
  - vm_compute. reflexivity.
  - apply (proj2 (proj2 (proj2 (proj2
             (checks_only_append scenario_file_no_server (initial_state 0)))))).
    vm_compute. reflexivity.
Defined.

(* ================================================================== *)
(** * The action elements *)

Lemma buttons_add_message m s : buttons (add_message m s) = buttons s.
Proof. reflexivity. Qed.

Lemma buttons_add_console e s : buttons (add_console e s) = buttons s.
Proof. reflexivity. Qed.

Lemma buttons_add_request r s : buttons (add_request r s) = buttons s.
Proof. reflexivity. Qed.

Lemma buttons_add_actions els s : buttons (add_actions els s) = buttons s ++ els.
Proof. reflexivity. Qed.

Lemma buttons_ensure_panel s : buttons (ensure_panel s) = buttons s.
Proof. reflexivity. Qed.

Lemma buttons_tick d s : buttons (tick d s) = buttons s.
Proof. reflexivity. Qed.

Create Rewrite HintDb actions.
#[export] Hint Rewrite
  buttons_add_message buttons_add_console buttons_add_request buttons_add_actions
  buttons_ensure_panel buttons_tick : actions.

Ltac button_facts :=
  autorewrite with actions; repeat rewrite <- app_assoc; cbn [app];
  repeat rewrite app_nil_r.

Lemma checkFileProtocol_buttons w s s' :
  exec w checkFileProtocol s = Some (tt, s') ->
  buttons s' = buttons s ++ protocol_buttons w.
Proof.
  unfold checkFileProtocol, protocol_buttons. run.
  destruct (String.eqb (location_protocol w) "file:"); run;
    intros H; inversion H; subst; button_facts; reflexivity.
Qed.

Lemma probePorts_buttons w ports :
  forall acc s rs s',
    exec w (probePorts ports acc) s = Some (rs, s') -> buttons s' = buttons s.
Proof.
  induction ports as [| p rest IH]; intros acc s rs s'.
  - cbn. intros H. inversion H. reflexivity.
  - cbn [probePorts]. run.
    destruct (fetchWithTimeout_settles _ _) as [d r].
    destruct r as [res | err]; run; intros H; apply IH in H; rewrite H;
      button_facts; reflexivity.
Qed.

Lemma checkLocalServers_buttons w s rs s' :
  exec w checkLocalServers s = Some (rs, s') ->
  buttons s' = buttons s ++ local_buttons rs.
Proof.
  unfold checkLocalServers, local_buttons. run. rewrite exec_prog_bind.
  destruct (exec w (probePorts LOCAL_PORTS []) _) as [[rs0 s0] |] eqn:Hloop;
    [| discriminate].
  apply probePorts_buttons in Hloop. rewrite some_ok_filter.
  destruct (some_ok rs0) eqn:Hsome; run; intros H; inversion H; subst;
    rewrite Hsome; button_facts; rewrite Hloop; button_facts; reflexivity.
Qed.






(* ================================================================== *)
(** * The protocol check *)

(** X2.  The protocol check makes no request and takes no time.  On a
    [file:] page it adds one warning row and the two remedies (the Live
    Server link with its hint, the copyable Python command); on any other
    page it adds one info row naming the protocol, and no action element. *)
Theorem protocol_check_reports w s :
  exists s',
    exec w checkFileProtocol s = Some (tt, s') /\
    requests s' = requests s /\
    clock s' = clock s /\
    (location_protocol w = "file:"%string ->
     rows_since s s' = [{| level := lvl_warn; text := FILE_PAGE |}] /\
     buttons s'
     = buttons s
       ++ [Button "Open Live Server docs"
             (OpenWindow
                "https://marketplace.visualstudio.com/items?itemName=ritwickdey.LiveServer");
           HintEl "VS Code Live Server extension (easy)";
           Button "Copy: start simple server (Python)"
             (CopyThenMessage "python3 -m http.server 5500" lvl_info
                              "Command copied: python3 -m http.server 5500")]) /\
    (location_protocol w <> "file:"%string ->
     rows_since s s'
     = [{| level := lvl_info;
           text := ("Page opened over " ++ location_protocol w)%string |}] /\
     buttons s' = buttons s).
Proof.
  destruct (checkFileProtocol_run w s) as (s' & Hex & Hrows & Hreq & Hclock).
  pose proof (checkFileProtocol_buttons _ _ _ Hex) as Hb.
  exists s'. split; [exact Hex |].
  rewrite app_nil_r in Hreq. rewrite N.add_0_r in Hclock.
  split; [exact Hreq |]. split; [exact Hclock |].
  unfold protocol_rows in Hrows. unfold protocol_buttons in Hb.
  split; intros Hp.
  - apply String.eqb_eq in Hp. rewrite Hp in Hrows, Hb.
    split; [apply rows_since_app; exact Hrows | exact Hb].
  - apply String.eqb_neq in Hp. rewrite Hp in Hrows, Hb.
    split; [apply rows_since_app; exact Hrows |].
    rewrite Hb, app_nil_r. reflexivity.
Qed.

Lemma protocol_check_reports_witness :
  location_protocol scenario_file_no_server = "file:"%string /\
  location_protocol scenario_offline <> "file:"%string /\
  (exists s',
      exec scenario_file_no_server checkFileProtocol (initial_state 0) = Some (tt, s') /\
      rows_since (initial_state 0) s' = [{| level := lvl_warn; text := FILE_PAGE |}]) /\
  (exists s',
      exec scenario_offline checkFileProtocol (initial_state 0) = Some (tt, s') /\
      buttons s' = buttons (initial_state 0)).
Proof.
  assert (H1 : location_protocol scenario_file_no_server = "file:"%string) by reflexivity.
  assert (H2 : location_protocol scenario_offline <> "file:"%string) by discriminate.
  split; [exact H1 |]. split; [exact H2 |]. split.
  - destruct (protocol_check_reports scenario_file_no_server (initial_state 0))
      as (s' & Hex & _ & _ & Hfile & _).
    exists s'. split; [exact Hex | exact (proj1 (Hfile H1))].
  - destruct (protocol_check_reports scenario_offline (initial_state 0))
      as (s' & Hex & _ & _ & _ & Hother).
    exists s'. split; [exact Hex | exact (proj2 (Hother H2))].
Defined.

(* ================================================================== *)
(** * More on the local-port probe *)

Lemma settles_returned o t d res :
  fetchWithTimeout_settles o t = (d, Returned res) -> o = NetResolves d res /\ d < t.
Proof.
  unfold fetchWithTimeout_settles.
  destruct o as [d' r | d' e |]; try destruct (N.ltb_spec d' t);
    intros Heq; inversion Heq; subst; auto.
Qed.

Lemma settles_resolves d res t :
  d < t -> fetchWithTimeout_settles (NetResolves d res) t = (d, Returned res).
Proof.
  intros H. unfold fetchWithTimeout_settles.
  destruct (N.ltb_spec d t); [reflexivity | lia].
Qed.

(** X3.  A port counts as up exactly when its fetch resolves in less than
    2000 ms: the status and the body of the response play no part, and a
    response that comes later is a failure like a refused connection.  The
    URL asked carries the time of the call as its cache buster. *)
Theorem port_up_iff_resolves_in_time w p s :
  exists r req s',
    exec w (probePorts [p] []) s = Some ([r], s') /\
    requests_since s s' = [req] /\
    req_url req = local_probe_url p (clock s) /\
    port r = p /\
    (ok r = true <->
     exists d res,
       net w (local_probe_url p (clock s)) local_probe_options (clock s)
       = NetResolves d res /\ d < LOCAL_TIMEOUT).
Proof.
  cbn [probePorts]. run.
  destruct (fetchWithTimeout_settles _ _) as [d r] eqn:E.
  destruct r as [res | err]; run; cbn [app];
    (eexists _, _, _; split; [reflexivity |]);
    (split; [apply requests_since_app; autorewrite with page; reflexivity |]);
    (split; [reflexivity |]); (split; [reflexivity |]); cbn [ok].
  - split; auto. intros _. apply settles_returned in E. destruct E as (E & Hd). eauto.
  - split; [discriminate |]. intros (d' & res & Hnet & Hd).
    rewrite Hnet, (settles_resolves _ _ _ Hd) in E. discriminate.
Qed.

Lemma probePorts_chained w ports :
  forall acc s rs s',
    exec w (probePorts ports acc) s = Some (rs, s') ->
    exists reqs,
      requests s' = requests s ++ reqs /\
      chained (clock s) reqs /\
      clock s' = clock s + total_wait reqs.
Proof.
  induction ports as [| p rest IH]; intros acc s rs s'.
  - cbn. intros H. inversion H; subst. exists []. rewrite app_nil_r. cbn.
    repeat split; auto. lia.
  - cbn [probePorts]. run.
    destruct (fetchWithTimeout_settles _ _) as [d r].
    match goal with |- context [add_request ?q s] => set (rq := q) end.
    destruct r as [res | err]; run; intros H; apply IH in H;
      destruct H as (reqs & Hreq & Hch & Hcl); exists (rq :: reqs);
      revert Hreq Hch Hcl; autorewrite with page; intros Hreq Hch Hcl;
      rewrite Hreq, Hcl, <- app_assoc, total_wait_cons; subst rq;
      cbn [chained issued_at waited app]; repeat split; auto; lia.
Qed.

(** X4.  The ports are probed one after the other: each request is issued
    at the moment the wait for the previous one ended, the first at the
    start of the loop, and the loop ends when the last wait does. *)
Theorem ports_probed_in_sequence w P s :
  exists rs s',
    exec w (probePorts P []) s = Some (rs, s') /\
    chained (clock s) (requests_since s s') /\
    clock s' = clock s + total_wait (requests_since s s') /\
    length (requests_since s s') = length P.
Proof.
  destruct (probePorts_run w P [] s) as (rs & reqs & s' & Hex & Hp & _ & _ & Hreq & _).
  destruct (probePorts_chained _ _ _ _ _ _ Hex) as (reqs' & Hreq' & Hch & Hcl).
  exists rs, s'. split; [exact Hex |].
  rewrite (requests_since_app _ _ _ Hreq').
  split; [exact Hch |]. split; [exact Hcl |].
  rewrite Hreq in Hreq'. apply app_inv_head in Hreq'. subst reqs'.
  apply (probed_ports _ _ _ Hp).
Qed.

(** X5.  The local check adds its heading row and then exactly one verdict:
    "Local dev server detected" when some port answered, and otherwise "No
    local dev server detected" together with the button that copies
    [npm start]. *)
Theorem local_check_verdict w s :
  exists rs s',
    exec w checkLocalServers s = Some (rs, s') /\
    length (rows_since s s') = 2%nat /\
    (emits s s' LOCAL_DETECTED <-> exists r, In r rs /\ ok r = true) /\
    (emits s s' LOCAL_NOT_DETECTED <-> Forall (fun r => ok r = false) rs) /\
    (emits s s' LOCAL_DETECTED <-> buttons s' = buttons s) /\
    (emits s s' LOCAL_NOT_DETECTED <->
     buttons s' = buttons s
                  ++ [Button "Copy: npm start"
                        (CopyThenMessage "npm start" lvl_info "Copied: npm start")]).
Proof.
  destruct (checkLocalServers_run w s) as (rs & reqs & s' & Hex & _ & _ & Hrows & _).
  pose proof (checkLocalServers_buttons _ _ _ _ Hex) as Hb.
  exists rs, s'. split; [exact Hex |].
  unfold emits. rewrite (rows_since_app _ _ _ Hrows), Hb.
  unfold local_rows, local_buttons.
  rewrite <- some_ok_exists, <- every_not_ok_Forall.
  destruct (some_ok rs) eqn:Hsome.
  - assert (Hall : every_not_ok rs = false).
    { destruct (every_not_ok rs) eqn:E; auto.
      rewrite (every_not_ok_excludes_some_ok _ E) in Hsome. discriminate. }
    rewrite Hall, app_nil_r. cbn.
    repeat split; auto; try discriminate;
      try (intros [H | [H | []]]; discriminate H).
    + intros H. apply (f_equal (@length _)) in H. rewrite length_app in H. cbn in H. lia.
  - assert (Hall : every_not_ok rs = true).
    { unfold every_not_ok, some_ok in *. clear -Hsome.
      induction rs as [| r rs IH]; cbn in *; auto.
      destruct (ok r); cbn in *; [discriminate | auto]. }
    rewrite Hall. cbn.
    repeat split; auto; try discriminate;
      try (intros [H | [H | []]]; discriminate H).
    + intros H. apply (f_equal (@length _)) in H. rewrite length_app in H. cbn in H. lia.
Qed.

(* ================================================================== *)
(** * The offline finding *)

Lemma finding_offline_iff w run :
  In FINDING_OFFLINE (map text (finding_rows w run)) <->
  online (netResult run) = false.
Proof.
  unfold finding_rows.
  destruct (String.eqb (location_protocol w) "file:" && every_not_ok (localResults run)),
           (negb (ext_ok (external run)) && some_ok (localResults run)),
           (online (netResult run));
    cbn; split; auto; intros H;
    repeat (destruct H as [H | H]; [discriminate H |]); try discriminate; destruct H.
Qed.

Lemma gathered_online w s run s1 :
  exec w gatherResults s = Some (run, s1) ->
  online (netResult run) = navigator_onLine w.
Proof.
  intros Hex.
  destruct (gatherResults_inv _ _ _ _ Hex)
    as (reqsL & sE & d & reqsA & sA & _ & _ & _ & _ & _ & Hnt & _).
  destruct (navigator_onLine w); destruct Hnt as (_ & ->); [| reflexivity].
  destruct (settled (adapter_request w sA)); reflexivity.
Qed.

(** X6.  A run emits "Network offline — reconnect required" exactly when
    the browser reports the adapter offline, whatever the probes did; the
    run then shows the adapter's own error row as well, and its adapter
    result says [online: false]. *)
Theorem offline_finding_iff w s run s1 :
  exec w gatherResults s = Some (run, s1) ->
  exists s',
    exec w runAllChecks s = Some (tt, s') /\
    online (netResult run) = navigator_onLine w /\
    (emits s s' FINDING_OFFLINE <-> navigator_onLine w = false) /\
    (emits s s' ADAPTER_OFFLINE <-> navigator_onLine w = false).
Proof.
  intros Hex.
  destruct (runAllChecks_after_gather _ _ _ _ Hex) as (s' & Hrun & Hrows & _).
  pose proof (gathered_online _ _ _ _ Hex) as Hon.
  exists s'. split; [exact Hrun |]. split; [exact Hon |]. split.
  - rewrite (emits_finding _ _ _ _ _ Hrows) by (cbn; auto).
    rewrite finding_offline_iff, Hon. reflexivity.
  - unfold emits. rewrite Hrows, <- Hon.
    unfold run_rows, gathered_rows, protocol_rows, local_rows, external_rows,
      adapter_rows, finding_rows.
    destruct (String.eqb (location_protocol w) "file:"),
             (every_not_ok (localResults run)), (some_ok (localResults run)),
             (ext_ok (external run)), (online (netResult run)),
             (check_failed (netResult run));
      cbn; (split; [| intros Hoff; try discriminate Hoff;
                      repeat (first [left; reflexivity | right])]);
      auto; intros H;
      repeat (destruct H as [H | H]; [discriminate H |]); destruct H.
Qed.

Lemma offline_finding_iff_witness :
  exists run s1,
    exec scenario_offline gatherResults (initial_state 0) = Some (run, s1) /\
    exists s',
      exec scenario_offline runAllChecks (initial_state 0) = Some (tt, s') /\
      online (netResult run) = navigator_onLine scenario_offline /\
      (emits (initial_state 0) s' FINDING_OFFLINE <->
       navigator_onLine scenario_offline = false) /\
      (emits (initial_state 0) s' ADAPTER_OFFLINE <->
       navigator_onLine scenario_offline = false).
Proof.
  eexists _, _. split.
  - vm_compute. reflexivity.
  - eapply offline_finding_iff. vm_compute. reflexivity.
Defined.

(* ================================================================== *)
(** * How long a run takes *)

Lemma external_verdict_delay B o d0 r d ext :
  (forall d' res, o = NetResolves d' res -> body_within B res) ->
  fetchWithTimeout_settles o EXTERNAL_TIMEOUT = (d0, r) ->
  external_verdict r = Some (d, ext) -> d <= B.
Proof.
  intros Hbody Hs Hv. destruct r as [res | e].
  - apply settles_returned in Hs. destruct Hs as (-> & _).
    specialize (Hbody _ _ eq_refl). unfold body_within in Hbody.
    unfold external_verdict in Hv.
    destruct (body res) as [d' v | d' e |]; [| | contradiction].
    + destruct (getProp v "ip") as [ip |]; [destruct (interpolate ip) |];
        inversion Hv; subst; exact Hbody.
    + inversion Hv; subst; exact Hbody.
  - cbn in Hv. inversion Hv; subst. lia.
Qed.

Lemma external_verdict_some B o d0 r :
  (forall d' res, o = NetResolves d' res -> body_within B res) ->
  fetchWithTimeout_settles o EXTERNAL_TIMEOUT = (d0, r) ->
  external_verdict r <> None.
Proof.
  intros Hbody Hs. destruct r as [res | e]; [| discriminate].
  apply settles_returned in Hs. destruct Hs as (-> & _).
  specialize (Hbody _ _ eq_refl). unfold body_within in Hbody.
  unfold external_verdict.
  destruct (body res) as [d' v | d' e |]; [| discriminate | contradiction].
  destruct (getProp v "ip") as [ip |]; [destruct (interpolate ip) |]; discriminate.
Qed.

(** X7.  If the body of every response of the public IP endpoint is read,
    or its read fails, within [B] ms, a run completes, and it does so
    within 13000 + [B] ms: three local probes of at most 2000 ms, the
    external fetch of at most 4000 ms and its body, and the adapter's probe
    of at most 3000 ms. *)
Theorem run_completes_within w s B :
  (forall t d res,
      net w EXTERNAL_IP_URL external_probe_options t = NetResolves d res ->
      body_within B res) ->
  exists s',
    exec w runAllChecks s = Some (tt, s') /\
    clock s <= clock s' /\
    clock s' <= clock s + (13000 + B).
Proof.
  intros Hbody.
  destruct (gatherResults_run w s) as (lr & reqsL & sE & Hp & Hb & Hc & Hv).
  pose proof (surjective_pairing
                (fetchWithTimeout_settles
                   (net w EXTERNAL_IP_URL external_probe_options (clock sE))
                   EXTERNAL_TIMEOUT)) as Hs.
  pose proof (external_verdict_some B _ _ _ (Hbody (clock sE)) Hs) as Hsome.
  destruct (external_verdict (settled (external_request w sE))) as [[d ext] |] eqn:Ev;
    [| exfalso; apply Hsome; exact Ev].
  pose proof (external_verdict_delay B _ _ _ _ _ (Hbody (clock sE)) Hs Ev) as Hd.
  destruct Hv as (nt & reqsA & sA & s1 & Hex & _ & Hnt & _ & _ & Hclock).
  destruct (runAllChecks_after_gather _ _ _ _ Hex) as (s' & Hrun & _ & _ & Hcl' & _).
  exists s'. split; [exact Hrun |]. rewrite Hcl', Hclock.
  assert (HL : total_wait reqsL <= 6000).
  { pose proof (total_wait_bound reqsL LOCAL_TIMEOUT Hb (probed_timeouts _ _ _ Hp)) as H.
    destruct (probed_ports _ _ _ Hp) as (_ & _ & Hlen). rewrite Hlen in H.
    exact H. }
  assert (HE : waited (external_request w sE) <= 4000).
  { apply (external_request_bounded w sE). }
  assert (HA : total_wait reqsA <= 3000).
  { destruct (navigator_onLine w); destruct Hnt as (-> & _).
    - rewrite total_wait_cons. cbn [total_wait fold_right].
      pose proof (adapter_request_bounded w sA) as (H & _).
      change (req_timeout (adapter_request w sA)) with 3000 in H. lia.
    - cbn. lia. }
  change (req_timeout (external_request w sE)) with 4000 in HE.
  split; lia.
Qed.

Lemma run_completes_within_witness :
  (forall t d res,
      net scenario_slow_body EXTERNAL_IP_URL external_probe_options t = NetResolves d res ->
      body_within 60000 res) /\
  exists s',
    exec scenario_slow_body runAllChecks (initial_state 0) = Some (tt, s') /\
    clock (initial_state 0) <= clock s' /\
    clock s' <= clock (initial_state 0) + (13000 + 60000).
Proof.
  assert (H : forall t d res,
             net scenario_slow_body EXTERNAL_IP_URL external_probe_options t
             = NetResolves d res -> body_within 60000 res).
  { intros t d res Hnet. cbv in Hnet. inversion Hnet; subst. cbv. discriminate. }
  split; [exact H |].
  exact (run_completes_within scenario_slow_body (initial_state 0) 60000 H).
Defined.



(* ================================================================== *)
(** * What a run renders *)








(* ================================================================== *)
(** * The loop *)















(** X12.  The page load starts one run, and with no click after it the
    loop comes to rest with the page exactly as that run alone leaves it. *)
Theorem page_load_runs_once w t0 s' :
  exec w runAllChecks (initial_state t0) = Some (tt, s') ->
  exists fuel,
    simulate fuel w [(t0, DOMContentLoaded)] (page_load t0)
    = Some {| page := s'; tasks := [] |}.
Proof.
  intros Hrun.
  destruct (simulate_solo w runAllChecks _ _ Hrun) as (fuel & Hsim).
  exists (S fuel). rewrite <- Hsim. apply simulate_turn.
  cbn [turn page_load tasks pick]. unfold deliver, at_time. cbn [page tasks].
  change (clock (initial_state t0)) with t0. rewrite N.max_id. reflexivity.
Qed.

Lemma page_load_runs_once_witness :
  exists s',
    exec scenario_file_no_server runAllChecks (initial_state 0) = Some (tt, s') /\
    exists fuel,
      simulate fuel scenario_file_no_server [(0, DOMContentLoaded)] (page_load 0)
      = Some {| page := s'; tasks := [] |}.
Proof.
  eexists. split.
  - vm_compute. reflexivity.
  - apply page_load_runs_once. vm_compute. reflexivity.
Defined.

(* ================================================================== *)
(** * The health check of app.js *)

Section Health.
Import App.
Variable net : Net.

Lemma fetch_request u t :
  fetchWithTimeout net u get_options HEALTH_TIMEOUT t
  = match net u health_request t with
    | Resolves d res =>
        if d <? HEALTH_TIMEOUT then Fulfils (t + d) res
        else Rejects (t + HEALTH_TIMEOUT) abort_error
    | Fails d e =>
        if d <? HEALTH_TIMEOUT then Rejects (t + d) e
        else Rejects (t + HEALTH_TIMEOUT) abort_error
    | Pending => Rejects (t + HEALTH_TIMEOUT) abort_error
    end.
Proof. reflexivity. Qed.

Ltac step_attempt :=
  unfold attempt, tryCatch; cbn [bind ret Monad_Async];
  unfold async_bind, async_ret; cbv beta;
  rewrite fetch_request.

(** A turn on a URL that is down hands an error to the next turn. *)
Lemma attempt_down u t :
  down (net u health_request t) ->
  exists t' e, attempt net u t = Fulfils t' (inl e) /\ t <= t'.
Proof.
  intros Hd. step_attempt.
  destruct (net u health_request t) as [d res | d e |]; cbn [down] in Hd.
  - destruct (N.ltb_spec d HEALTH_TIMEOUT) as [Hlt | Hge].
    + fold (is_json res).
      destruct (ok res) eqn:Hok; cbn [negb].
      * destruct Hd as [Hd | [Hd | [(Hj & dj & e & Hb) | (Hj & dt & e & Hb)]]];
          try lia; try discriminate; rewrite Hj.
        -- unfold readJson. rewrite Hb. eexists _, _. split; [reflexivity | lia].
        -- unfold readText. rewrite Hb. eexists _, _. split; [reflexivity | lia].
      * eexists _, _. split; [reflexivity | lia].
    + eexists _, _. split; [reflexivity | lia].
  - destruct (d <? HEALTH_TIMEOUT); eexists _, _; (split; [reflexivity | lia]).
  - eexists _, _. split; [reflexivity | lia].
Qed.

Lemma attempt_silent u t :
  silent (net u health_request t) ->
  exists t' e, attempt net u t = Fulfils t' (inl e) /\ t' <= t + HEALTH_TIMEOUT.
Proof.
  intros Hs. step_attempt.
  destruct (net u health_request t) as [d res | d e |]; cbn [silent] in Hs.
  - destruct (N.ltb_spec d HEALTH_TIMEOUT) as [Hlt | Hge]; [lia |].
    eexists _, _. split; [reflexivity | lia].
  - destruct (N.ltb_spec d HEALTH_TIMEOUT); eexists _, _; (split; [reflexivity | lia]).
  - eexists _, _. split; [reflexivity | lia].
Qed.

Lemma attempt_up u t d :
  up d (net u health_request t) ->
  exists t', attempt net u t
             = Fulfils t' (inr {| url := u; healthy := true; data := d |}).
Proof.
  intros (after & res & Hnet & Hlt & Hok & Hbody). step_attempt. rewrite Hnet.
  destruct (N.ltb_spec after HEALTH_TIMEOUT); [| lia].
  rewrite Hok. cbn [negb]. fold (is_json res).
  destruct Hbody as [(Hj & dj & v & Hb & ->) | (Hj & dt & s & Hb & ->)]; rewrite Hj.
  - unfold readJson. rewrite Hb. eexists. reflexivity.
  - unfold readText. rewrite Hb. eexists. reflexivity.
Qed.

Lemma attempt_stuck u t :
  stuck (net u health_request t) -> attempt net u t = Pends.
Proof.
  intros (after & res & Hnet & Hlt & Hok & Hbody). step_attempt. rewrite Hnet.
  destruct (N.ltb_spec after HEALTH_TIMEOUT); [| lia].
  rewrite Hok. cbn [negb]. fold (is_json res).
  destruct Hbody as [(Hj & Hb) | (Hj & Hb)]; rewrite Hj.
  - unfold readJson. rewrite Hb. reflexivity.
  - unfold readText. rewrite Hb. reflexivity.
Qed.

Lemma tryUrls_cons u rest lastErr t :
  tryUrls net (u :: rest) lastErr t
  = match attempt net u t with
    | Fulfils t' (inr result) => Fulfils t' result
    | Fulfils t' (inl e) => tryUrls net rest (Some e) t'
    | Rejects t' e => Rejects t' e
    | Pends => Pends
    end.
Proof.
  cbn [tryUrls bind ret Monad_Async]. unfold async_bind, async_ret.
  destruct (attempt net u t) as [t' [e | r] | t' e |]; reflexivity.
Qed.

(** The loop passes over a prefix of URLs that are down. *)
Lemma tryUrls_skip pre rest :
  (forall v t', In v pre -> down (net v health_request t')) ->
  forall lastErr t,
  exists t' lastErr',
    tryUrls net (pre ++ rest) lastErr t = tryUrls net rest lastErr' t' /\ t <= t'.
Proof.
  induction pre as [| u pre IH]; intros Hdown lastErr t.
  - exists t, lastErr. split; [reflexivity | lia].
  - destruct (attempt_down u t (Hdown u t (or_introl eq_refl))) as (t1 & e & Hat & Ht).
    destruct (IH (fun v t' Hv => Hdown v t' (or_intror Hv)) (Some e) t1)
      as (t' & lastErr' & Hrest & Ht').
    exists t', lastErr'. cbn [app]. rewrite tryUrls_cons, Hat. split; [exact Hrest | lia].
Qed.

(** X13.  The health check answers with the first URL, in the order
    [api/health], [health], base, that responds within 4000 ms with a status
    in 200-299 and a readable body, the URLs before it being down; the
    later ones are not consulted.  The result is always [ok: true], names
    that URL, and carries the parsed JSON when the content type includes
    [application/json] and the text otherwise. *)
Theorem health_first_up_wins base pre u post d t :
  urlsToTry base = pre ++ u :: post ->
  (forall v t', In v pre -> down (net v health_request t')) ->
  (forall t', up d (net u health_request t')) ->
  exists t',
    fetchServerHealth net base t
    = Fulfils t' {| url := u; healthy := true; data := d |}.
Proof.
  intros Hurls Hdown Hup. unfold fetchServerHealth. rewrite Hurls.
  destruct (tryUrls_skip pre (u :: post) Hdown None t) as (t1 & lastErr & Hskip & _).
  destruct (attempt_up u t1 d (Hup t1)) as (t' & Hat).
  exists t'. rewrite Hskip, tryUrls_cons, Hat. reflexivity.
Qed.

(** X14.  When every URL is down the health check throws, and what it
    throws is the error of the last URL alone: the errors of [api/health]
    and [health] are overwritten, and the message "No health endpoints
    responded" is never used.  If the base URL answered in time with a
    status outside 200-299, the message is ["HTTP <status> <text> from
    <base>"]. *)
Theorem health_reports_last_error base t :
  (forall v t', In v (urlsToTry base) -> down (net v health_request t')) ->
  exists t' e,
    fetchServerHealth net base t = Rejects t' e /\
    (exists t3 t3', attempt net base t3 = Fulfils t3' (inl e)) /\
    (forall d res,
        (forall t3, net base health_request t3 = Resolves d res) ->
        d < HEALTH_TIMEOUT -> ok res = false ->
        e = http_error res base).
Proof.
  intros Hdown. unfold fetchServerHealth.
  change (urlsToTry base) with ([(base ++ "api/health")%string; (base ++ "health")%string]
                                ++ [base]).
  destruct (tryUrls_skip [(base ++ "api/health")%string; (base ++ "health")%string] [base]
              (fun v t' Hv => Hdown v t' (in_or_app _ [base] v (or_introl Hv))) None t)
    as (t1 & lastErr & Hskip & _).
  destruct (attempt_down base t1
              (Hdown base t1 (or_intror (or_intror (or_introl eq_refl)))))
    as (t' & e & Hat & _).
  exists t', e. rewrite Hskip, tryUrls_cons, Hat. split; [reflexivity |].
  split; [eauto |].
  intros d res Hnet Hlt Hok. revert Hat. step_attempt. rewrite (Hnet t1).
  destruct (N.ltb_spec d HEALTH_TIMEOUT); [| lia].
  rewrite Hok. cbn [negb]. intros Heq; inversion Heq. reflexivity.
Qed.

Lemma tryUrls_silent urls :
  (forall v t', In v urls -> silent (net v health_request t')) ->
  forall lastErr t,
  exists t' e,
    tryUrls net urls lastErr t = Rejects t' e /\
    t' <= t + N.of_nat (length urls) * HEALTH_TIMEOUT.
Proof.
  induction urls as [| u urls IH]; intros Hs lastErr t.
  - cbn. eexists _, _. split; [reflexivity | lia].
  - destruct (attempt_silent u t (Hs u t (or_introl eq_refl))) as (t1 & e & Hat & Ht).
    destruct (IH (fun v t' Hv => Hs v t' (or_intror Hv)) (Some e) t1)
      as (t' & e' & Hrest & Ht').
    exists t', e'. rewrite tryUrls_cons, Hat. split; [exact Hrest |].
    cbn [length]. rewrite Nat2N.inj_succ. lia.
Qed.

(** X15.  When no URL answers within its 4000 ms (refused, pending or
    late), the health check throws within 12000 ms of its start. *)
Theorem health_unreachable_within base t :
  (forall v t', In v (urlsToTry base) -> silent (net v health_request t')) ->
  exists t' e,
    fetchServerHealth net base t = Rejects t' e /\ t' <= t + 12000.
Proof.
  intros Hs. destruct (tryUrls_silent (urlsToTry base) Hs None t) as (t' & e & H & Ht).
  exists t', e. split; [exact H |]. cbn in Ht. lia.
Qed.

(** X16.  The timer of the health check bounds the wait for the response
    only: when a URL answers in time with a good status and a body that
    never ends, the URLs before it being down, the health check never
    settles and the later URLs are never tried. *)
Theorem health_hangs_on_endless_body base pre u post t :
  urlsToTry base = pre ++ u :: post ->
  (forall v t', In v pre -> down (net v health_request t')) ->
  (forall t', stuck (net u health_request t')) ->
  fetchServerHealth net base t = Pends.
Proof.
  intros Hurls Hdown Hstuck. unfold fetchServerHealth. rewrite Hurls.
  destruct (tryUrls_skip pre (u :: post) Hdown None t) as (t1 & lastErr & Hskip & _).
  rewrite Hskip, tryUrls_cons, (attempt_stuck u t1 (Hstuck t1)). reflexivity.
Qed.

End Health.

Lemma health_first_up_wins_witness :
  let base := "http://localhost:5001/"%string in
  let pre := [(base ++ "api/health")%string; (base ++ "health")%string] in
  let d := App.DataText "GameFlix Auth API Running..." in
  (App.urlsToTry base = pre ++ base :: [] /\
   (forall v t', In v pre -> App.down (App.express_backend v App.health_request t')) /\
   (forall t', App.up d (App.express_backend base App.health_request t'))) /\
  exists t',
    App.fetchServerHealth App.express_backend base 0
    = App.Fulfils t' {| App.url := base; App.healthy := true; App.data := d |}.
Proof.
  cbv zeta.
  assert (H1 : App.urlsToTry "http://localhost:5001/"
               = ["http://localhost:5001/api/health"%string;
                  "http://localhost:5001/health"%string]
                 ++ "http://localhost:5001/"%string :: []) by reflexivity.
  assert (H2 : forall v t',
             In v ["http://localhost:5001/api/health"%string;
                   "http://localhost:5001/health"%string] ->
             App.down (App.express_backend v App.health_request t')).
  { intros v t' [<- | [<- | []]]; right; left; reflexivity. }
  assert (H3 : forall t' : N,
             App.up (App.DataText "GameFlix Auth API Running...")
                    (App.express_backend "http://localhost:5001/" App.health_request t')).
  { intros t'. exists 8, App.greeting_response.
    split; [reflexivity |]. split; [reflexivity |]. split; [reflexivity |].
    right. split; [reflexivity |]. exists 2, "GameFlix Auth API Running..."%string.
    split; reflexivity. }
  split; [exact (conj H1 (conj H2 H3)) |].
  exact (health_first_up_wins App.express_backend _ _ _ _ _ 0 H1 H2 H3).
Defined.

Lemma health_reports_last_error_witness :
  (forall v t', In v (App.urlsToTry "/") -> App.down (App.no_backend v App.health_request t')) /\
  exists t' e,
    App.fetchServerHealth App.no_backend "/" 0 = App.Rejects t' e /\
    (exists t3 t3', App.attempt App.no_backend "/" t3 = App.Fulfils t3' (inl e)) /\
    (forall d res,
        (forall t3, App.no_backend "/" App.health_request t3 = App.Resolves d res) ->
        d < App.HEALTH_TIMEOUT -> App.ok res = false ->
        e = App.http_error res "/").
Proof.
  assert (H : forall v t', In v (App.urlsToTry "/") ->
                           App.down (App.no_backend v App.health_request t'))
    by (intros v t' _; exact I).
  split; [exact H |].
  exact (health_reports_last_error App.no_backend "/" 0 H).
Defined.

Lemma health_unreachable_within_witness :
  (forall v t', In v (App.urlsToTry "/") ->
                App.silent (App.no_backend v App.health_request t')) /\
  exists t' e,
    App.fetchServerHealth App.no_backend "/" 0 = App.Rejects t' e /\ t' <= 0 + 12000.
Proof.
  assert (H : forall v t', In v (App.urlsToTry "/") ->
                           App.silent (App.no_backend v App.health_request t'))
    by (intros v t' _; exact I).
  split; [exact H |].
  exact (health_unreachable_within App.no_backend "/" 0 H).
Defined.

Lemma health_hangs_on_endless_body_witness :
  (App.urlsToTry "/" = [] ++ "/api/health"%string :: ["/health"%string; "/"%string] /\
   (forall v t', In v [] -> App.down (App.endless_backend v App.health_request t')) /\
   (forall t', App.stuck (App.endless_backend "/api/health" App.health_request t'))) /\
  App.fetchServerHealth App.endless_backend "/" 0 = App.Pends.
Proof.
  assert (H1 : App.urlsToTry "/"
               = [] ++ "/api/health"%string :: ["/health"%string; "/"%string])
    by reflexivity.
  assert (H2 : forall v t', In v [] ->
                            App.down (App.endless_backend v App.health_request t'))
    by (intros v t' []).
  assert (H3 : forall t' : N,
             App.stuck (App.endless_backend "/api/health" App.health_request t')).
  { intros t'. eexists 8, _. split; [reflexivity |]. split; [reflexivity |].
    split; [reflexivity |]. right. split; reflexivity. }
  split; [exact (conj H1 (conj H2 H3)) |].
  exact (health_hangs_on_endless_body App.endless_backend _ _ _ _ 0 H1 H2 H3).
Defined.

(* ================================================================== *)
(** * The status element of app.js *)

Lemma in_class_remove c x l :
  In c (App.class_remove x l) <-> In c l /\ c <> x.
Proof.
  unfold App.class_remove. rewrite filter_In, negb_true_iff, String.eqb_neq. reflexivity.
Qed.

Lemma in_class_add c x l :
  In c (App.class_add x l) <-> In c l \/ c = x.
Proof.
  unfold App.class_add. destruct (existsb (String.eqb x) l) eqn:E.
  - split; auto. intros [H | ->]; auto.
    apply existsb_exists in E. destruct E as (y & Hy & Hxy).
    apply String.eqb_eq in Hxy. subst. exact Hy.
  - rewrite in_app_iff. cbn. intuition.
Qed.

(** X17.  After [showStatus] the status element has the class [ok] exactly
    when the check succeeded and the class [error] exactly when it failed,
    never both, whatever classes it had; every other class is kept, and
    the text is the message behind "OK — " or "ERROR — ".  A missing
    element is left missing. *)
Theorem showStatus_sets_one_class el isOk msg :
  App.showStatus None isOk msg = None /\
  exists el',
    App.showStatus (Some el) isOk msg = Some el' /\
    (In "ok"%string (App.classList el') <-> isOk = true) /\
    (In "error"%string (App.classList el') <-> isOk = false) /\
    (forall c, c <> "ok"%string -> c <> "error"%string ->
               (In c (App.classList el') <-> In c (App.classList el))) /\
    App.textContent el'
    = ((if isOk then "OK — " else "ERROR — ") ++ msg)%string.
Proof.
  split; [reflexivity |]. eexists. split; [reflexivity |].
  cbn [App.classList App.textContent].
  split; [| split; [| split]].
  - rewrite in_class_add, !in_class_remove. destruct isOk; intuition congruence.
  - rewrite in_class_add, !in_class_remove. destruct isOk; intuition congruence.
  - intros c Hok Herr. rewrite in_class_add, !in_class_remove.
    destruct isOk; intuition congruence.
  - destruct isOk; reflexivity.
Qed.

Lemma showStatus_sets_one_class_witness :
  let el := {| App.classList := ["status"; "error"; "ok"]%string;
               App.textContent := "Loading..." |} in
  exists el',
    App.showStatus (Some el) true "up" = Some el' /\
    App.classList el' = ["status"; "ok"]%string /\
    ("status"%string <> "ok"%string -> "status"%string <> "error"%string ->
     (In "status"%string (App.classList el') <-> In "status"%string (App.classList el))).
Proof.
  cbv zeta.
  destruct (showStatus_sets_one_class
              {| App.classList := ["status"; "error"; "ok"]%string;
                 App.textContent := "Loading..." |} true "up")
    as (_ & el' & Hshow & _ & _ & Hkeep & _).
  exists el'. split; [exact Hshow |]. split.
  - cbn in Hshow. inversion Hshow. reflexivity.
  - exact (Hkeep "status"%string).
Defined.
